(** * forsta-ai-bot: the intent-routing and response core of [src/index.js]

    A shallow embedding of the message listener ([msgListener]), of the
    addressing policy ([needsResponse]), of the distribution cache and of
    the [IntentManager] class, together with the properties the
    specification states about them.

    JavaScript strings are embedded as [string]; a character stands for a
    UTF-16 code unit in the range 0..255 (ASCII and Latin-1), which is the
    range on which the case mappings and the character classes below are
    written out.  Objects used as maps are [gmap]s, the [Set] of member ids
    is a [gset].  Every [await] is run to completion before the next
    statement: one listener invocation is one transition of the state.
    What the program writes to the console is left out. *)

From Stdlib Require Import Ascii QArith.
From stdpp Require Import base option list strings pretty gmap.

Local Open Scope stdpp_scope.

(** ** JavaScript strings *)

Module Js.

Definition code (c : ascii) : nat := nat_of_ascii c.

(** The character class [[A-Z]] of a regular expression without flags. *)
Definition is_AZ (c : ascii) : bool :=
  (65 <=? code c)%nat && (code c <=? 90)%nat.

Definition is_az (c : ascii) : bool :=
  (97 <=? code c)%nat && (code c <=? 122)%nat.

(** Upper-case letters of Latin-1 outside ASCII: U+00C0..U+00DE but the
    multiplication sign U+00D7. *)
Definition is_latin1_upper (c : ascii) : bool :=
  (192 <=? code c)%nat && (code c <=? 222)%nat && negb (code c =? 215)%nat.

(** Lower-case letters of Latin-1 whose upper case is in Latin-1:
    U+00E0..U+00FE but the division sign U+00F7. *)
Definition is_latin1_lower (c : ascii) : bool :=
  (224 <=? code c)%nat && (code c <=? 254)%nat && negb (code c =? 247)%nat.

Definition lower_char (c : ascii) : ascii :=
  if is_AZ c || is_latin1_upper c then ascii_of_nat (code c + 32) else c.

(** [Canonicalize] of the regular-expression semantics under the [i] flag:
    the upper-case mapping where it yields one code unit.  Characters whose
    upper case leaves the range (U+00B5, U+00FF) or is longer (U+00DF) are
    alone in their class and are kept. *)
Definition canonicalize (c : ascii) : ascii :=
  if is_az c || is_latin1_lower c then ascii_of_nat (code c - 32) else c.

Fixpoint map_chars (f : ascii -> ascii) (s : string) : string :=
  match s with
  | EmptyString => EmptyString
  | String c s' => String (f c) (map_chars f s')
  end.

(** [String.prototype.toLowerCase]. *)
Definition toLowerCase (s : string) : string := map_chars lower_char s.

(** The class [\s]: tab, line feed, vertical tab, form feed, carriage
    return, space and no-break space. *)
Definition is_whitespace (c : ascii) : bool :=
  match code c with
  | 9 | 10 | 11 | 12 | 13 | 32 | 160 => true
  | _ => false
  end.

(** Line terminators, which [.] does not match. *)
Definition is_line_terminator (c : ascii) : bool :=
  match code c with
  | 10 | 13 => true
  | _ => false
  end.

Fixpoint drop_chars (n : nat) (s : string) : string :=
  match n, s with
  | O, _ => s
  | S _, EmptyString => EmptyString
  | S n', String _ s' => drop_chars n' s'
  end.

(** [s.substr(start)] for a start within [0 .. length]: the rest of the
    string from that index (the empty string past the end). *)
Definition substr (s : string) (start : nat) : string := drop_chars start s.

Fixpoint startsWith (s p : string) : bool :=
  match p, s with
  | EmptyString, _ => true
  | String _ _, EmptyString => false
  | String a p', String b s' => if decide (a = b) then startsWith s' p' else false
  end.

(** [s.replace(/([A-Z])/g, x => '.' + x.toLowerCase())]: every ASCII capital
    is replaced by a dot and its lower case. *)
Fixpoint replace_capitals (s : string) : string :=
  match s with
  | EmptyString => EmptyString
  | String c s' =>
      if is_AZ c then String "." (String (lower_char c) (replace_capitals s'))
      else String c (replace_capitals s')
  end.

(** [s.replace(/\s+/g, sep)]: every maximal run of white space is replaced
    by one copy of [sep].  [in_run] tells that the previous character
    belonged to a run that was already replaced. *)
Fixpoint replace_ws_from (in_run : bool) (sep s : string) : string :=
  match s with
  | EmptyString => EmptyString
  | String c s' =>
      if is_whitespace c then
        if in_run then replace_ws_from true sep s'
        else sep +:+ replace_ws_from true sep s'
      else String c (replace_ws_from false sep s')
  end.

Definition replace_ws_runs (s sep : string) : string := replace_ws_from false sep s.

(** [s.split(/\s+/)] without a limit.  [cur] is the piece being read; a run
    of white space closes it (also when it is empty, which happens at the
    start of the string), and the end of the string closes the last one. *)
Fixpoint split_ws_from (in_run : bool) (cur s : string) : list string :=
  match s with
  | EmptyString => [cur]
  | String c s' =>
      if is_whitespace c then
        if in_run then split_ws_from true cur s'
        else cur :: split_ws_from true EmptyString s'
      else split_ws_from false (cur +:+ String c EmptyString) s'
  end.

(** [s.split(/\s+/, limit)]: the pieces are those of the unlimited split,
    and the array is returned as soon as it holds [limit] of them. *)
Definition split_ws (s : string) (limit : nat) : list string :=
  take limit (split_ws_from false EmptyString s).

Fixpoint join (sep : string) (l : list string) : string :=
  match l with
  | [] => EmptyString
  | [x] => x
  | x :: l' => x +:+ sep +:+ join sep l'
  end.

End Js.

(** ** A fragment of regular expressions

    [needsResponse] builds [new RegExp(name, 'i')] from the bot's names.
    The patterns embedded here are the ones made of ordinary characters and
    of the wildcard [.]; a tag slug is of that form.  Any other syntax
    character puts the pattern outside the fragment. *)

Module Regex.

Inductive atom :=
  | AChar (c : ascii)   (* an ordinary character, matched up to case *)
  | AAny.               (* the wildcard: any character but a line terminator *)

Definition is_syntax_char (c : ascii) : bool :=
  match Js.code c with
  | 36 (* $ *) | 40 | 41 (* parentheses *) | 42 (* * *) | 43 (* + *)
  | 46 (* . *) | 63 (* ? *) | 91 | 92 | 93 (* [ \ ] *) | 94 (* ^ *)
  | 123 | 124 | 125 (* { | } *) => true
  | _ => false
  end.

Fixpoint parse (p : string) : option (list atom) :=
  match p with
  | EmptyString => Some []
  | String c p' =>
      if decide (c = "."%char) then cons AAny <$> parse p'
      else if is_syntax_char c then None
      else cons (AChar c) <$> parse p'
  end.

Definition accepts (a : atom) (c : ascii) : bool :=
  match a with
  | AChar p => bool_decide (Js.canonicalize p = Js.canonicalize c)
  | AAny => negb (Js.is_line_terminator c)
  end.

(** The atoms match a prefix of [s]. *)
Fixpoint match_here (r : list atom) (s : string) : bool :=
  match r, s with
  | [], _ => true
  | _ :: _, EmptyString => false
  | a :: r', String c s' => accepts a c && match_here r' s'
  end.

(** Leftmost match: the index of the first position where the atoms match,
    counted from [i]. *)
Fixpoint search (r : list atom) (s : string) (i : nat) : option nat :=
  if match_here r s then Some i
  else match s with
       | EmptyString => None
       | String _ s' => search r s' (S i)
       end.


End Regex.

(** ** Values, exceptions and the data model *)

Definition dquote : string := String (ascii_of_nat 34) EmptyString.
Definition newline : string := String (ascii_of_nat 10) EmptyString.

(** The JavaScript values that flow through the listener. *)
#[warnings="-register-all"]
Inductive value :=
  | VUndefined
  | VBool (b : bool)
  | VString (s : string)
  | VArray (items : list value)
  | VObject (fields : list (string * value)).

(** [ToBoolean]. *)
Definition truthy (v : value) : bool :=
  match v with
  | VUndefined => false
  | VBool b => b
  | VString s => negb (bool_decide (s = EmptyString))
  | VArray _ | VObject _ => true
  end.

(** A thrown value (or the reason of a rejected promise). *)
Inductive exn :=
  | TypeError (message : string)
  | Failure (printed : string).

(** What a template literal prints for a caught exception. *)
Definition exn_to_string (e : exn) : string :=
  match e with
  | TypeError m => "TypeError: " +:+ m
  | Failure s => s
  end.

Inductive completion (A : Type) :=
  | Normal (a : A)
  | Throw (e : exn).
Arguments Normal {A} a.
Arguments Throw {A} e.

Record Tag := { tag_id : string; slug : string }.
Record Org := { org_slug : string }.

Record Bot := {
  id : string;
  first_name : string;
  middle_name : string;
  last_name : string;
  tag : Tag;
  org : Org
}.

(** The result of [atlas.resolveTags]. *)
Record Distribution := { userids : list string }.

Definition distribution_value (d : Distribution) : value :=
  VObject [("userids", VArray (VString <$> userids d))].

(** The parameters api.ai extracts: strings, [None] when absent. *)
Record Params := { p_type : option string; p_name : option string }.

Record AiResult := {
  action : string;
  parameters : Params;
  speech : string        (* [fulfillment.speech] *)
}.

(** The first element of the parsed message body, with the sender. *)
Record Event := {
  source : string;
  body : option (list (string * string));   (* [msg.data.body]: type, value *)
  expression : string;                       (* [msg.distribution.expression] *)
  threadId : string
}.

(** Calls to the collaborators, in the order they are made. *)
Inductive effect :=
  | EResolveTags (expr : string)
  | ETextRequest (text sessionId : string)
  | EFetch (url : string) (json : gmap string value)
  | ESend (msg : gmap string value).

(** The collaborators.  Each one sees the calls made so far, so that its
    answer may change from one call to the next. *)
Record World := {
  resolveTags : list effect -> string -> completion Distribution;
  textRequest : list effect -> string -> string -> completion AiResult;
  fetch_user : list effect -> string -> gmap string value -> completion Bot;
  fetch_tag : list effect -> string -> gmap string value -> completion Tag;
  send : list effect -> gmap string value -> completion unit;
  (** [text.match(new RegExp(pattern, 'i'))]: a syntax error, [null], or a
      match with its index. *)
  regexp_match_i : string -> string -> completion (option nat);
  Math_random : list effect -> Q;
  (** The engine's message for reading a property of [undefined]. *)
  cannot_read_property : string -> string
}.


(** The mutable state of [msgListener]: [state.bot], [distCache], and the
    calls made so far. *)
Record State := {
  bot : Bot;
  distCache : gmap string Distribution;
  trace : list effect
}.

Definition log (e : effect) (st : State) : State :=
  {| bot := bot st; distCache := distCache st; trace := trace st ++ [e] |}.

Definition set_bot (b : Bot) (st : State) : State :=
  {| bot := b; distCache := distCache st; trace := trace st |}.

Definition set_cache (k : string) (d : Distribution) (st : State) : State :=
  {| bot := bot st; distCache := <[k := d]> (distCache st); trace := trace st |}.

(** ** The monad of listener code: state and exceptions *)

Definition M (A : Type) : Type := State -> completion A * State.

Definition ret {A} (a : A) : M A := fun st => (Normal a, st).
Definition throw {A} (e : exn) : M A := fun st => (Throw e, st).
Definition bind {A B} (m : M A) (k : A -> M B) : M B :=
  fun st => match m st with
            | (Normal a, st') => k a st'
            | (Throw e, st') => (Throw e, st')
            end.
Definition get : M State := fun st => (Normal st, st).
Definition modify (f : State -> State) : M unit := fun st => (Normal tt, f st).
Definition lift {A} (c : completion A) : M A := fun st => (c, st).

(** [try { m } catch (e) { h e }]. *)
Definition try_catch {A} (m : M A) (h : exn -> M A) : M A :=
  fun st => match m st with
            | (Normal a, st') => (Normal a, st')
            | (Throw e, st') => h e st'
            end.

Declare Scope js_scope.
Delimit Scope js_scope with js.
Notation "x <- m ;; k" := (bind m (fun x => k))
  (at level 100, m at next level, right associativity) : js_scope.
Notation "m ;;; k" := (bind m (fun _ => k))
  (at level 100, right associativity) : js_scope.
Local Open Scope js_scope.

(** A call to a collaborator: it is recorded, then answered. *)
Definition call {A} (e : effect) (answer : list effect -> completion A) : M A :=
  fun st => (answer (trace st), log e st).

(** ** The program *)

(** [x || fallback] on strings: the empty string is falsy. *)
Definition or_else (s fallback : string) : string :=
  if decide (s = EmptyString) then fallback else s.

(** A parameter that is present and truthy. *)
Definition present (o : option string) : option string :=
  match o with
  | Some s => if decide (s = EmptyString) then None else Some s
  | None => None
  end.

Definition opt_value (o : option string) : value :=
  match o with
  | Some s => VString s
  | None => VUndefined
  end.

(** [names[i]]. *)
Definition item (names : list string) (i : nat) : value := opt_value (names !! i).

(** [obj.key], [undefined] when the key is absent. *)
Definition field (obj : gmap string value) (key : string) : value :=
  default VUndefined (obj !! key).

(** [Object.assign(target, src)]: the own properties of the source are
    copied in order.  Those of an array are its items under their indices,
    those of a string its characters under theirs; [undefined] and a
    boolean have none. *)
Definition Object_assign (target : gmap string value) (src : value) : gmap string value :=
  let assign := foldl (fun m (kv : string * value) => <[kv.1 := kv.2]> m) target in
  match src with
  | VObject fields => assign fields
  | VArray items => assign (imap (fun i x => (pretty i, x)) items)
  | VString s =>
      assign (imap (fun i c => (pretty i, VString (String c EmptyString)))
                   (String.list_ascii_of_string s))
  | VUndefined | VBool _ => target
  end.

(** The methods of [IntentManager.prototype], in declaration order, as
    [Object.getOwnPropertyNames] lists them. *)
Inductive method :=
  | m_constructor
  | m_updateBotUser
  | m_updateBotTag
  | m_handleNameAgentGet
  | m_handleNameAgentChange
  | m_handleNameAgentDelete
  | m_findHandler.

Definition prototype : list (string * method) :=
  [ ("constructor", m_constructor);
    ("updateBotUser", m_updateBotUser);
    ("updateBotTag", m_updateBotTag);
    ("handleNameAgentGet", m_handleNameAgentGet);
    ("handleNameAgentChange", m_handleNameAgentChange);
    ("handleNameAgentDelete", m_handleNameAgentDelete);
    ("findHandler", m_findHandler) ].

(** [prop.replace(/([A-Z])/g, x => '.' + x.toLowerCase()).substr(7)]. *)
Definition intent_name (prop : string) : string :=
  Js.substr (Js.replace_capitals prop) 7.

(** One turn of the constructor's loop. *)
Definition register (handlers : gmap string method) (pm : string * method)
  : gmap string method :=
  if Js.startsWith pm.1 "handle" then <[intent_name pm.1 := pm.2]> handlers
  else handlers.

(** The [handlers] map the constructor builds from a prototype. *)
Definition build_handlers (proto : list (string * method)) : gmap string method :=
  foldl register ∅ proto.

Definition handlers : gmap string method := build_handlers prototype.

(** [findHandler(name)]: the handler, or [undefined] ([None]). *)
Definition findHandler (name : string) : option method := handlers !! name.

Definition with_tag (b : Bot) (t : Tag) : Bot :=
  {| id := id b; first_name := first_name b; middle_name := middle_name b;
     last_name := last_name b; tag := t; org := org b |}.

Definition full_name_reply (b : Bot) : string :=
  "Okay, I'm now " +:+ first_name b +:+ " " +:+ middle_name b +:+ " " +:+ last_name b.

Definition refuse_whole_name : string := "I can't delete my whole name silly.".

Section Program.

Variable W : World.

(** [needsResponse(sender, dist, text)].  [bot_id] is [bot.id] of the bot
    the listener was started with, [b] is [state.bot].  A function body
    that ends without [return] yields [undefined]. *)
Definition needsResponse (bot_id : string) (b : Bot)
    (sender : string) (dist : Distribution) (text : string) : completion value :=
  let members : gset string := list_to_set (userids dist) in
  let members := members ∖ {[ bot_id ]} in
  let members := members ∖ {[ sender ]} in
  if decide (size members = 0) then Normal (VBool true)
  else
    match regexp_match_i W (first_name b) text with
    | Throw e => Throw e
    | Normal (Some _) => Normal (VBool true)
    | Normal None =>
        match regexp_match_i W (last_name b) text with
        | Throw e => Throw e
        | Normal (Some _) => Normal (VBool true)
        | Normal None =>
            match regexp_match_i W (slug (tag b)) text with
            | Throw e => Throw e
            | Normal (Some _) => Normal (VBool true)
            | Normal None => Normal VUndefined
            end
        end
    end.

(** [updateBotUser(updates)]. *)
Definition updateBotUser (updates : gmap string value) : M Bot :=
  st <- get ;;
  let url := "/v1/user/" +:+ id (bot st) +:+ "/" in
  b <- call (EFetch url updates) (fun h => fetch_user W h url updates) ;;
  modify (set_bot b) ;;;
  ret b.

(** [updateBotTag(updates)]. *)
Definition updateBotTag (updates : gmap string value) : M Tag :=
  st <- get ;;
  let url := "/v1/tag/" +:+ tag_id (tag (bot st)) +:+ "/" in
  t <- call (EFetch url updates) (fun h => fetch_tag W h url updates) ;;
  modify (fun st => set_bot (with_tag (bot st) t) st) ;;;
  ret t.

(** [handleNameAgentGet(params)]. *)
Definition handleNameAgentGet (params : Params) : M value :=
  st <- get ;;
  let b := bot st in
  match present (p_type params) with
  | Some ty =>
      if decide (ty = "first name") then
        ret (VString (or_else (first_name b) "I don't have a first name."))
      else if decide (ty = "last name") then
        ret (VString (or_else (last_name b) "I don't have a last name."))
      else if decide (ty = "middle name") then
        ret (VString (or_else (middle_name b) "I don't have a middle name."))
      else if decide (ty = "tag") then
        ret (VString ("@" +:+ slug (tag b) +:+ ":" +:+ org_slug (org b)))
      else ret VUndefined
  | None =>
      let chance := Math_random W (trace st) in
      if Qlt_le_dec chance (33 # 100) then
        ret (VString ("You can call me " +:+ first_name b))
      else if Qlt_le_dec chance (66 # 100) then
        ret (VString ("You are speaking with " +:+ first_name b +:+ " " +:+ last_name b))
      else
        ret (VString ("My tag is @" +:+ slug (tag b) +:+ ":" +:+ org_slug (org b)))
  end.

(** The common end of the change and delete handlers. *)
Definition update_and_confirm (updates : gmap string value) : M value :=
  b <- updateBotUser updates ;;
  ret (VString (full_name_reply b)).

(** [handleNameAgentChange(params)]. *)
Definition handleNameAgentChange (params : Params) : M value :=
  match present (p_type params) with
  | Some ty =>
      if decide (ty = "first name") then
        update_and_confirm {[ "first_name" := opt_value (p_name params) ]}
      else if decide (ty = "last name") then
        update_and_confirm {[ "last_name" := opt_value (p_name params) ]}
      else if decide (ty = "middle name") then
        update_and_confirm {[ "middle_name" := opt_value (p_name params) ]}
      else if decide (ty = "tag") then
        match p_name params with
        | None => throw (TypeError (cannot_read_property W "replace"))
        | Some name =>
            let wanted := Js.toLowerCase (Js.replace_ws_runs name ".") in
            t <- updateBotTag {[ "slug" := VString wanted ]} ;;
            st <- get ;;
            ret (VString ("Okay, my tag is now @" +:+ slug t +:+ ":"
                            +:+ org_slug (org (bot st))))
        end
      else update_and_confirm ∅
  | None =>
      match present (p_name params) with
      | Some name =>
          let names := Js.split_ws name 3 in
          let updates : gmap string value := {[ "first_name" := item names 0 ]} in
          let updates :=
            if decide (length names = 2) then
              <[ "last_name" := item names 1 ]> updates
            else if decide (length names = 3) then
              <[ "last_name" := item names 2 ]>
                (<[ "middle_name" := item names 1 ]> updates)
            else updates in
          update_and_confirm updates
      | None => ret (VString "To what?")
      end
  end.

(** [handleNameAgentDelete(params)]. *)
Definition handleNameAgentDelete (params : Params) : M value :=
  match present (p_type params) with
  | None => ret (VString refuse_whole_name)
  | Some ty =>
      if decide (ty = "first name") then ret (VString "I must have a first name!")
      else if decide (ty = "last name") then ret (VString "I must have a last name!")
      else if decide (ty = "middle name") then
        update_and_confirm {[ "middle_name" := VString EmptyString ]}
      else if decide (ty = "tag") then ret (VString "I must have a tag!")
      else update_and_confirm ∅
  end.

(** Calling a bound method with the parameters of an intent.  Only the
    three handlers are ever registered ([handlers_range] below); the other
    methods are not callable this way. *)
Definition call_method (m : method) (params : Params) : M value :=
  match m with
  | m_handleNameAgentGet => handleNameAgentGet params
  | m_handleNameAgentChange => handleNameAgentChange params
  | m_handleNameAgentDelete => handleNameAgentDelete params
  | _ => throw (TypeError "not a handler")
  end.

(** The loop over [msg.data.body]: the value of the first part whose type
    is [text/plain]. *)
Fixpoint first_text (parts : list (string * string)) : option string :=
  match parts with
  | [] => None
  | (ty, v) :: rest =>
      if decide (ty = "text/plain") then Some v else first_text rest
  end.

Definition message_text (ev : Event) : option string :=
  match body ev with
  | Some parts => present (first_text parts)
  | None => None
  end.

(** Lines 101-105: the distribution of an expression, through the cache.
    [distCache.get] of an absent key would be [undefined], and reading its
    [userids] a type error. *)
Definition resolve (distExpr : string) : M Distribution :=
  st <- get ;;
  (if decide (is_Some (distCache st !! distExpr)) then ret tt
   else
     d <- call (EResolveTags distExpr) (fun h => resolveTags W h distExpr) ;;
     modify (set_cache distExpr d)) ;;;
  st' <- get ;;
  match distCache st' !! distExpr with
  | Some d => ret d
  | None => throw (TypeError (cannot_read_property W "userids"))
  end.

Definition apology_text (e : exn) : string :=
  "Affraid I can't do that boss..." +:+ newline +:+ "(" +:+ exn_to_string e +:+ ")".

Definition apology_html (e : exn) : string :=
  "Affraid I can't do that boss...<br/><pre>" +:+ exn_to_string e +:+ "</pre>".

Definition nothing_to_do (action : string) : string :=
  "I have nothing to do with: " +:+ dquote +:+ action +:+ dquote.

(** The intent manager as the listener uses it: [findHandler(action)]
    answers with a callable or with [undefined]. *)
Definition manager : Type := string -> option (Params -> M value).

(** The manager of this program: the registered method, bound. *)
Definition intentManager : manager :=
  fun name => call_method <$> findHandler name.

(** Lines 111-133: the response message for an NLU result. *)
Definition compose (im : manager) (distribution : Distribution) (thread : string)
    (aiResp : AiResult) : M (gmap string value) :=
  let intentHandler := im (action aiResp) in
  let respMsg : gmap string value :=
    {[ "distribution" := distribution_value distribution;
       "threadId" := VString thread;
       "text" := VString (speech aiResp) ]} in
  respMsg <-
    match intentHandler with
    | Some handler =>
        try_catch
          (res <- handler (parameters aiResp) ;;
           ret (match res with
                | VString _ => <[ "text" := res ]> respMsg
                | _ => Object_assign respMsg res
                end))
          (fun e =>
             ret (<[ "html" := VString (apology_html e) ]>
                    (<[ "text" := VString (apology_text e) ]> respMsg)))
    | None => ret respMsg
    end ;;
  ret (if truthy (field respMsg "text") then respMsg
       else <[ "text" := VString (nothing_to_do (action aiResp)) ]> respMsg).

(** The listener of the [message] event, for an intent manager [im].
    [bot_id] is the id of the bot the listener was started with.  The
    result [tt] is the listener returning; [Throw] is its promise being
    rejected. *)
Definition on_message (im : manager) (bot_id : string) (ev : Event) : M unit :=
  match message_text ev with
  | None => ret tt
  | Some text =>
      distribution <- resolve (expression ev) ;;
      st <- get ;;
      wanted <- lift (needsResponse bot_id (bot st) (source ev) distribution text) ;;
      if truthy wanted then
        aiResp <- call (ETextRequest text (threadId ev))
                       (fun h => textRequest W h text (threadId ev)) ;;
        respMsg <- compose im distribution (threadId ev) aiResp ;;
        call (ESend respMsg) (fun h => send W h respMsg)
      else ret tt
  end.

(** The listener run over a sequence of events, one after the other; a
    rejected invocation does not stop the later ones. *)
Fixpoint run (im : manager) (bot_id : string) (evs : list Event) (st : State) : State :=
  match evs with
  | [] => st
  | ev :: rest => run im bot_id rest (on_message im bot_id ev st).2
  end.

(** The listener [msgListener] installs. *)
Definition listener : string -> Event -> M unit := on_message intentManager.

End Program.

Definition init_state (b : Bot) : State :=
  {| bot := b; distCache := ∅; trace := [] |}.

(** The messages sent, and the calls of each other kind, in a trace. *)
Definition sent (t : list effect) : list (gmap string value) :=
  omap (fun e => match e with ESend m => Some m | _ => None end) t.

Definition fetches (t : list effect) : list (string * gmap string value) :=
  omap (fun e => match e with EFetch u j => Some (u, j) | _ => None end) t.



(** ** What the specification's words mean *)

(** [s] contains [x] as a substring. *)
Definition contains (s x : string) : Prop :=
  exists pre post, s = pre +:+ x +:+ post.

(** [text] contains [name] up to the case of letters. *)
Definition contains_ci (text name : string) : Prop :=
  exists pre mid post,
    text = pre +:+ mid +:+ post /\ Js.toLowerCase mid = Js.toLowerCase name.

(** The atoms match the whole of [s]. *)
Fixpoint exact (r : list Regex.atom) (s : string) : bool :=
  match r, s with
  | [], EmptyString => true
  | a :: r', String c s' => Regex.accepts a c && exact r' s'
  | _, _ => false
  end.

(** The atoms of a pattern without syntax characters. *)
Fixpoint literal_atoms (p : string) : list Regex.atom :=
  match p with
  | EmptyString => []
  | String c p' => Regex.AChar c :: literal_atoms p'
  end.



(** The members of a distribution other than the bot and the sender. *)
Definition others (bot_id sender : string) (dist : Distribution) : gset string :=
  list_to_set (userids dist) ∖ {[ bot_id ]} ∖ {[ sender ]}.


(** No ASCII capital occurs in the string. *)
Fixpoint no_capitals (s : string) : bool :=
  match s with
  | EmptyString => true
  | String c s' => negb (Js.is_AZ c) && no_capitals s'
  end.

Fixpoint no_whitespace (s : string) : bool :=
  match s with
  | EmptyString => true
  | String c s' => negb (Js.is_whitespace c) && no_whitespace s'
  end.

(** ** Views of a run, for the statements and the proofs *)

(** The state when the NLU request has been issued. *)
Definition asked (ev : Event) (text : string) (st1 : State) : State :=
  log (ETextRequest text (threadId ev)) st1.

(** The addresses the two updates are sent to. *)
Definition user_url (st : State) : string := "/v1/user/" +:+ id (bot st) +:+ "/".

Definition tag_url (st : State) : string := "/v1/tag/" +:+ tag_id (tag (bot st)) +:+ "/".

(** The message before the handler has run. *)
Definition base_msg (d : Distribution) (thread : string) (aiResp : AiResult)
  : gmap string value :=
  {[ "distribution" := distribution_value d;
     "threadId" := VString thread;
     "text" := VString (speech aiResp) ]}.

(** The message after the handler has completed with [o]. *)
Definition merged (base : gmap string value) (o : completion value) : gmap string value :=
  match o with
  | Normal (VString s) => <[ "text" := VString s ]> base
  | Normal res => Object_assign base res
  | Throw e =>
      <[ "html" := VString (apology_html e) ]>
        (<[ "text" := VString (apology_text e) ]> base)
  end.

(** The last step: a falsy text is replaced. *)
Definition finished (action : string) (m : gmap string value) : gmap string value :=
  if truthy (field m "text") then m
  else <[ "text" := VString (nothing_to_do action) ]> m.

Definition is_fetch (e : effect) : Prop :=
  match e with
  | EFetch _ _ => True
  | _ => False
  end.

(** From [st] to [st'] the cache was not touched and only directory
    updates were issued. *)
Definition only_fetches (st st' : State) : Prop :=
  distCache st' = distCache st
  /\ exists t, trace st' = trace st ++ t /\ Forall is_fetch t.


(** All 256 characters, to settle facts about characters by enumeration. *)
Definition all_chars : list ascii := ascii_of_nat <$> seq 0 256.

(** ** A concrete bot and concrete collaborators, to run the model on *)

Module Sample.

Definition ada : Bot :=
  {| id := "bot-1"; first_name := "Ada"; middle_name := "";
     last_name := "Lovelace";
     tag := {| tag_id := "tag-1"; slug := "ada.bot" |};
     org := {| org_slug := "forsta" |} |}.

(** The engine restricted to the fragment. *)
Definition fragment_engine (p text : string) : completion (option nat) :=
  match Regex.parse p with
  | Some r => Normal (Regex.search r text 0)
  | None => Throw (Failure "SyntaxError: pattern outside the fragment")
  end.

(** A directory that stores what it is sent: the patched fields replace
    those of [ada], the patched slug that of her tag. *)
Definition patched (current : string) (json : gmap string value) (key : string) : string :=
  match json !! key with
  | Some (VString s) => s
  | _ => current
  end.

Definition echo_user (json : gmap string value) : Bot :=
  {| id := id ada;
     first_name := patched (first_name ada) json "first_name";
     middle_name := patched (middle_name ada) json "middle_name";
     last_name := patched (last_name ada) json "last_name";
     tag := tag ada; org := org ada |}.

Definition echo_tag (json : gmap string value) : Tag :=
  {| tag_id := tag_id (tag ada); slug := patched (slug (tag ada)) json "slug" |}.

(** Two conversations: a direct one and a group. *)
Definition members_of (expr : string) : completion Distribution :=
  if decide (expr = "<dm>") then Normal {| userids := ["bot-1"; "alice"] |}
  else if decide (expr = "<group>") then
    Normal {| userids := ["bot-1"; "alice"; "bob"] |}
  else Throw (Failure "Error: cannot resolve").

(** Collaborators that answer every text with the NLU result [nlu]. *)
Definition world (nlu : completion AiResult) (user : gmap string value -> completion Bot) : World :=
  {| resolveTags := fun _ expr => members_of expr;
     textRequest := fun _ _ _ => nlu;
     fetch_user := fun _ _ json => user json;
     fetch_tag := fun _ _ json => Normal (echo_tag json);
     send := fun _ _ => Normal tt;
     regexp_match_i := fragment_engine;
     Math_random := fun _ => 0%Q;
     cannot_read_property := fun p =>
       "Cannot read property '" +:+ p +:+ "' of undefined" |}.

Definition echo : gmap string value -> completion Bot := fun json => Normal (echo_user json).

Definition dm (text : string) : Event :=
  {| source := "alice"; body := Some [("text/html", "<b>x</b>"); ("text/plain", text)];
     expression := "<dm>"; threadId := "thread-1" |}.

Definition group (text : string) : Event :=
  {| source := "alice"; body := Some [("text/plain", text)];
     expression := "<group>"; threadId := "thread-2" |}.

Definition nlu (act : string) (ty name : option string) (sp : string) : completion AiResult :=
  Normal {| action := act; parameters := {| p_type := ty; p_name := name |}; speech := sp |}.

End Sample.

(** The runs the statements are tried on: a group conversation, the
    delete and change handlers, an action without a handler, an NLU
    service that is down, a directory that fails, and handlers that
    have nothing to say. *)

Module Addressing.


(** The same bot under a tag slug in two words. *)
Definition dotted : Bot :=
  {| id := "bot-2"; first_name := "Grace"; middle_name := "";
     last_name := "Hopper";
     tag := {| tag_id := "tag-2"; slug := "cobol.bot" |};
     org := {| org_slug := "forsta" |} |}.

Definition W : World := Sample.world (Sample.nlu "x" None None "") Sample.echo.
Definition room : Distribution := {| userids := ["bot-2"; "alice"; "bob"] |}.
Definition pair : Distribution := {| userids := ["bot-2"; "alice"] |}.

End Addressing.

Module Deleting.

Definition W : World := Sample.world (Sample.nlu "name.agent.delete" None None "") Sample.echo.
Definition st0 : State := init_state Sample.ada.
Definition of_type (ty : string) : Params := {| p_type := Some ty; p_name := None |}.

End Deleting.

Module Changing.

Definition W : World := Sample.world (Sample.nlu "name.agent.change" None None "") Sample.echo.
Definition st0 : State := init_state Sample.ada.

End Changing.

Module Fallback.

Definition W (sp : string) : World :=
  Sample.world (Sample.nlu "unknown.intent" None None sp) Sample.echo.
Definition st0 : State := init_state Sample.ada.
Definition pair : Distribution := {| userids := ["bot-1"; "alice"] |}.
Definition st1 : State := set_cache "<dm>" pair (log (EResolveTags "<dm>") st0).
Definition W' : World := W "Hello!".

End Fallback.

Module Outage.

Definition W : World :=
  Sample.world (Throw (Failure "Error: connection reset")) Sample.echo.

End Outage.

Module Failing.

Definition W : World :=
  Sample.world (Sample.nlu "name.agent.delete" (Some "middle name") None "Done.")
    (fun _ => Throw (Failure "Error: 500")).
Definition asked : State := log (ETextRequest "hi" "thread-1") Fallback.st1.
Definition failed : State :=
  log (EFetch "/v1/user/bot-1/" {[ "middle_name" := VString EmptyString ]}) asked.

End Failing.

Module Quiet.

Definition W : World := Sample.world (Sample.nlu "be.quiet" None None "Sure.") Sample.echo.
(** The get handler returns nothing for a type it does not know. *)
Definition W' : World :=
  Sample.world (Sample.nlu "name.agent.get" (Some "nickname") None "") Sample.echo.

End Quiet.

(** ** Starting up: [input], [login] and [main] *)

Module Startup.

(** The calls [main] and [login] make, in the order they are made. *)
Inductive call :=
  | GetState (key : string)              (* [relay.storage.getState] *)
  | Question (prompt : string)           (* [input]: one line read from the operator *)
  | Authenticate (userTag : string)      (* [relay.AtlasClient.authenticate] *)
  | CompleteLogin (code : string)        (* the function [authenticate] returns *)
  | Factory                              (* [relay.AtlasClient.factory] *)
  | GetDevices                           (* [atlas.getDevices] *)
  | RegisterAccount                      (* [relay.registerAccount] *)
  | GetUsers (addrs : list value)        (* [atlas.getUsers] *)
  | MaintainToken (on : bool)            (* [atlas.maintainToken] *)
  | MsgListener (b : Bot).               (* [msgListener({atlas, bot})] *)

(** The collaborators of the start; each sees the calls made so far. *)
Record Host := {
  getState : list call -> string -> completion value;
  question : list call -> string -> string;
  authenticate : list call -> string -> completion unit;
  completeLogin : list call -> string -> completion unit;
  factory : list call -> completion unit;
  getDevices : list call -> completion (list (string * string));   (* id, name *)
  registerAccount : list call -> completion unit;
  getUsers : list call -> list value -> completion (list Bot);
  (** The engine's message for reading a property of [undefined]. *)
  no_property : string -> string
}.

(** How a run ends: the function returns, its promise is rejected, the
    process exits, or the model has no restart left. *)
Inductive ending (A : Type) :=
  | Returned (a : A)
  | Rejected (e : exn)
  | Exited (code : nat)
  | Unfinished.
Arguments Returned {A} a.
Arguments Rejected {A} e.
Arguments Exited {A} code.
Arguments Unfinished {A}.

Definition S (A : Type) : Type := list call -> ending A * list call.

Definition ret {A} (a : A) : S A := fun h => (Returned a, h).
Definition bind {A B} (m : S A) (k : A -> S B) : S B :=
  fun h => match m h with
           | (Returned a, h') => k a h'
           | (Rejected e, h') => (Rejected e, h')
           | (Exited c, h') => (Exited c, h')
           | (Unfinished, h') => (Unfinished, h')
           end.

(** A call that may fail: recorded, then answered. *)
Definition ask {A} (c : call) (answer : list call -> completion A) : S A :=
  fun h => (match answer h with
            | Normal a => Returned a
            | Throw e => Rejected e
            end, h ++ [c]).

(** [process.exit(code)]. *)
Definition exit {A} (code : nat) : S A := fun h => (Exited code, h).

(** [try { m } catch (e) { handler e }]. *)
Definition try_catch {A} (m : S A) (handler : exn -> S A) : S A :=
  fun h => match m h with
           | (Rejected e, h') => handler e h'
           | r => r
           end.

Declare Scope startup_scope.
Notation "x <- m ;; k" := (bind m (fun x => k))
  (at level 100, m at next level, right associativity) : startup_scope.
Notation "m ;;; k" := (bind m (fun _ => k))
  (at level 100, right associativity) : startup_scope.
Local Open Scope startup_scope.

Definition tag_prompt : string := "Enter your full user tag (e.g @user:org): ".
Definition code_prompt : string := "SMS Verification Code: ".
Definition reset_prompt : string := dquote +:+ "YES" +:+ dquote +:+ " to reset account: ".

Section Host.

Variable H : Host.

(** [input(prompt)]: the line the operator types.  The readline interface
    is opened for the question and closed after it. *)
Definition input (prompt : string) : S string :=
  fun h => (Returned (question H h prompt), h ++ [Question prompt]).

(** [login(userTag)]. *)
Definition login (userTag : option string) : S unit :=
  userTag <- match present userTag with
             | Some t => ret t
             | None => input tag_prompt
             end ;;
  ask (Authenticate userTag) (fun h => authenticate H h userTag) ;;;
  code <- input code_prompt ;;
  ask (CompleteLogin code) (fun h => completeLogin H h code).

(** Lines 47-59 of [main]: the account is registered when the store has no
    registration id, after the operator has agreed to replace the devices
    there are. *)
Definition register_if_needed : S unit :=
  registrationId <- ask (GetState "registrationId")
                        (fun h => getState H h "registrationId") ;;
  if truthy registrationId then ret tt
  else
    devices <- ask GetDevices (getDevices H) ;;
    (if decide (length devices = 0) then ret tt
     else
       answer <- input reset_prompt ;;
       if decide (answer = "YES") then ret tt else exit 1) ;;;
    ask RegisterAccount (registerAccount H).

(** Lines 60-64 of [main]: the bot is the first user the directory has for
    the stored address; reading its tag fails when there is none. *)
Definition start_listener : S unit :=
  botAddr <- ask (GetState "addr") (fun h => getState H h "addr") ;;
  users <- ask (GetUsers [botAddr]) (fun h => getUsers H h [botAddr]) ;;
  match users with
  | [] => fun h => (Rejected (TypeError (no_property H "tag")), h)
  | b :: _ =>
      ask (MaintainToken true) (fun _ => Normal tt) ;;;
      ask (MsgListener b) (fun _ => Normal tt)
  end.

(** [main()].  It calls itself after a failed [factory] and a new login;
    [fuel] bounds these restarts. *)
Fixpoint main (fuel : nat) : S unit :=
  match fuel with
  | O => fun h => (Unfinished, h)
  | Datatypes.S fuel' =>
      credential <- ask (GetState "atlasCredential")
                        (fun h => getState H h "atlasCredential") ;;
      (if truthy credential then ret tt else login None) ;;;
      carry_on <- try_catch
                    (ask Factory (factory H) ;;; ret true)
                    (fun _ => login None ;;; ret false) ;;
      if carry_on : bool then register_if_needed ;;; start_listener
      else main fuel'
  end.

End Host.

Definition is_register (c : call) : bool :=
  match c with RegisterAccount => true | _ => false end.

Definition is_listener (c : call) : bool :=
  match c with MsgListener _ => true | _ => false end.

Definition is_question (c : call) : bool :=
  match c with Question _ => true | _ => false end.

(** How many times the account was registered, the listener started, the
    operator asked, in a list of calls. *)
Definition registrations (t : list call) : nat := length (List.filter is_register t).
Definition listeners (t : list call) : nat := length (List.filter is_listener t).
Definition questions (t : list call) : nat := length (List.filter is_question t).

End Startup.

(** ** More views and runs, for the further properties *)

(** A handler result is a string or [undefined], or the handler throws;
    the cache is as before; at most one call was made, a directory
    update. *)
Definition handler_step (st : State) (r : completion value * State) : Prop :=
  ((exists s, r.1 = Normal (VString s)) \/ r.1 = Normal VUndefined
   \/ exists e, r.1 = Throw e)
  /\ distCache r.2 = distCache st
  /\ (r.2 = st \/ exists url json, trace r.2 = trace st ++ [EFetch url json]).

Module GetTag.

Definition W : World :=
  Sample.world (Sample.nlu "name.agent.get" (Some "tag") None "It is...") Sample.echo.
Definition reply : AiResult :=
  {| action := "name.agent.get";
     parameters := {| p_type := Some "tag"; p_name := None |};
     speech := "It is..." |}.

End GetTag.

Module Elsewhere.

(** A manager whose handler answers elsewhere, without a text. *)
Definition elsewhere : list (string * value) :=
  [("threadId", VString "thread-7"); ("text", VString EmptyString)].
Definition im : manager := fun _ => Some (fun _ => ret (VObject elsewhere)).

End Elsewhere.

Module Broken.

(** A bot whose first name is not a regular expression of the engine. *)
Definition bot : Bot :=
  {| id := "bot-1"; first_name := "Ada (bot"; middle_name := "";
     last_name := "Lovelace";
     tag := {| tag_id := "tag-1"; slug := "ada.bot" |};
     org := {| org_slug := "forsta" |} |}.
Definition st0 : State := init_state bot.
Definition room : Distribution := {| userids := ["bot-1"; "alice"; "bob"] |}.
Definition st1 : State := set_cache "<group>" room (log (EResolveTags "<group>") st0).
Definition pair1 : State :=
  set_cache "<dm>" Fallback.pair (log (EResolveTags "<dm>") st0).

End Broken.

Module Tagless.

Definition reply : AiResult :=
  {| action := "name.agent.change";
     parameters := {| p_type := Some "tag"; p_name := None |};
     speech := "Done." |}.
Definition W : World := Sample.world (Normal reply) Sample.echo.

End Tagless.

(** A scripted operator and store, to run the start on. *)

Module Console.

Definition is_factory (c : Startup.call) : bool :=
  match c with Startup.Factory => true | _ => false end.

(** The store holds [cred] and [reg]; the operator types [answers] in
    turn; the factory fails [failures] times before it succeeds. *)
Definition host (cred reg : value) (devices : list (string * string))
    (answers : list string) (failures : nat) : Startup.Host :=
  {| Startup.getState := fun _ key =>
       Normal (if decide (key = "atlasCredential") then cred
               else if decide (key = "registrationId") then reg
               else if decide (key = "addr") then VString "bot-1"
               else VUndefined);
     Startup.question := fun h _ => nth (Startup.questions h) answers EmptyString;
     Startup.authenticate := fun _ _ => Normal tt;
     Startup.completeLogin := fun _ _ => Normal tt;
     Startup.factory := fun h =>
       if (length (List.filter is_factory h) <? failures)%nat
       then Throw (Failure "Error: no credential") else Normal tt;
     Startup.getDevices := fun _ => Normal devices;
     Startup.registerAccount := fun _ => Normal tt;
     Startup.getUsers := fun _ _ => Normal [Sample.ada];
     Startup.no_property := fun p =>
       "Cannot read property '" +:+ p +:+ "' of undefined" |}.

Definition phone : list (string * string) := [("1", "phone")].

End Console.

(** A run that neither registers the account nor starts the listener. *)
Definition quiet_calls (t : list Startup.call) : Prop :=
  Startup.registrations t = 0 /\ Startup.listeners t = 0.

(** How a run of [main] may end, and what it has done by then. *)
Definition main_ending (r : Startup.ending unit) (t : list Startup.call) : Prop :=
  Startup.registrations t <= 1
  /\ match r with
     | Startup.Returned _ =>
         exists t0 b,
           t = t0 ++ [Startup.MaintainToken true; Startup.MsgListener b]
           /\ Startup.listeners t0 = 0
     | Startup.Rejected _ => Startup.listeners t = 0
     | Startup.Exited c =>
         c = 1 /\ Startup.listeners t = 0 /\ Startup.registrations t = 0
     | Startup.Unfinished =>
         Startup.listeners t = 0 /\ Startup.registrations t = 0
     end.

(** One round of [main], with what it does after a failed [factory] and a
    new login left open: first the part from [factory] on, then the whole
    round. *)
Definition main_tail (H : Startup.Host) (again : Startup.S unit) : Startup.S unit :=
  Startup.bind
    (Startup.try_catch
       (Startup.bind (Startup.ask Startup.Factory (Startup.factory H))
          (fun _ => Startup.ret true))
       (fun _ => Startup.bind (Startup.login H None) (fun _ => Startup.ret false)))
    (fun carry_on : bool =>
       if carry_on
       then Startup.bind (Startup.register_if_needed H)
              (fun _ => Startup.start_listener H)
       else again).

Definition main_round (H : Startup.Host) (again : Startup.S unit) : Startup.S unit :=
  Startup.bind
    (Startup.ask (Startup.GetState "atlasCredential")
       (fun h => Startup.getState H h "atlasCredential"))
    (fun credential =>
       Startup.bind
         (if truthy credential then Startup.ret tt else Startup.login H None)
         (fun _ => main_tail H again)).

(** * Properties *)

(** ** Strings *)

Example toLowerCase_ex : Js.toLowerCase "New Name" = "new name".
Proof. reflexivity. Qed.

Example split_ex1 : Js.split_ws "Ada Lovelace" 3 = ["Ada"; "Lovelace"].
Proof. reflexivity. Qed.

Example split_ex2 : Js.split_ws " a  b c d e" 3 = [""; "a"; "b"].
Proof. reflexivity. Qed.

Example replace_ex : Js.replace_ws_runs " a  b c " "." = ".a.b.c.".
Proof. reflexivity. Qed.

Lemma app_cons c s t : String c s +:+ t = String c (s +:+ t).
Proof. reflexivity. Qed.

Lemma app_empty_l s : EmptyString +:+ s = s.
Proof. reflexivity. Qed.

Lemma app_empty_r s : s +:+ EmptyString = s.
Proof. induction s as [|c s IH]; [done|]. by rewrite app_cons, IH. Qed.

Lemma app_assoc' s t u : (s +:+ t) +:+ u = s +:+ t +:+ u.
Proof. induction s as [|c s IH]; [done|]. by rewrite !app_cons, IH. Qed.

Lemma contains_app_r s t x : contains t x -> contains (s +:+ t) x.
Proof.
  intros (pre & post & ->). exists (s +:+ pre), post. by rewrite app_assoc'.
Qed.

Lemma contains_app_l s t x : contains s x -> contains (s +:+ t) x.
Proof.
  intros (pre & post & ->). exists pre, (post +:+ t). by rewrite !app_assoc'.
Qed.

Lemma contains_refl x : contains x x.
Proof. exists EmptyString, EmptyString. by rewrite app_empty_r. Qed.

Lemma all_chars_complete c : c ∈ all_chars.
Proof.
  rewrite <- (ascii_nat_embedding c). apply list_elem_of_fmap_2.
  apply elem_of_seq. pose proof (nat_ascii_bounded c). lia.
Qed.

Lemma for_all_chars (P : ascii -> bool) :
  forallb P all_chars = true -> forall c, P c = true.
Proof.
  intros H c. rewrite forallb_forall in H.
  exact (H c (proj1 (list_elem_of_In _ _) (all_chars_complete c))).
Qed.

Lemma lower_canonicalize c : Js.lower_char (Js.canonicalize c) = Js.lower_char c.
Proof.
  pose proof (for_all_chars
    (fun c => Ascii.eqb (Js.lower_char (Js.canonicalize c)) (Js.lower_char c))
    ltac:(vm_compute; reflexivity) c) as H.
  by apply Ascii.eqb_eq in H.
Qed.

Lemma canonicalize_lower_char c : Js.canonicalize (Js.lower_char c) = Js.canonicalize c.
Proof.
  pose proof (for_all_chars
    (fun c => Ascii.eqb (Js.canonicalize (Js.lower_char c)) (Js.canonicalize c))
    ltac:(vm_compute; reflexivity) c) as H.
  by apply Ascii.eqb_eq in H.
Qed.

(** Two characters are equal under [Canonicalize] exactly when their lower
    cases are equal. *)
Lemma canonicalize_lower a b :
  Js.canonicalize a = Js.canonicalize b <-> Js.lower_char a = Js.lower_char b.
Proof.
  split; intros E.
  - by rewrite <- (lower_canonicalize a), E, lower_canonicalize.
  - by rewrite <- (canonicalize_lower_char a), E, canonicalize_lower_char.
Qed.

(** ** The fragment of regular expressions *)

Lemma app_eq_empty s t : s +:+ t = EmptyString -> s = EmptyString.
Proof. by destruct s. Qed.

Lemma match_here_spec r s :
  Regex.match_here r s = true <->
  exists mid post, s = mid +:+ post /\ exact r mid = true.
Proof.
  revert s. induction r as [|a r IH]; intros s.
  - split; [|done]. intros _. by exists EmptyString, s.
  - destruct s as [|c s]; simpl.
    + split; [done|]. intros (mid & post & E & X).
      symmetry in E. apply app_eq_empty in E. by subst mid.
    + rewrite andb_true_iff, IH. split.
      * intros (A & mid & post & -> & X). exists (String c mid), post.
        split; [done|]. simpl. by rewrite A, X.
      * intros (mid & post & E & X). destruct mid as [|c' mid]; [done|].
        rewrite app_cons in E. injection E as -> ->.
        simpl in X. apply andb_true_iff in X as [A X]. eauto.
Qed.

Lemma search_spec r s i :
  is_Some (Regex.search r s i) <->
  exists pre mid post, s = pre +:+ mid +:+ post /\ exact r mid = true.
Proof.
  revert i. induction s as [|c s IH]; intros i; simpl.
  - destruct (Regex.match_here r EmptyString) eqn:E.
    + split; [|eauto]. intros _. apply match_here_spec in E as (mid & post & E & X).
      by exists EmptyString, mid, post.
    + split; [by intros [? ?]|]. intros (pre & mid & post & E' & X).
      destruct pre; [|done]. rewrite app_empty_l in E'.
      assert (Regex.match_here r EmptyString = true) by (apply match_here_spec; eauto).
      congruence.
  - destruct (Regex.match_here r (String c s)) eqn:E.
    + split; [|eauto]. intros _. apply match_here_spec in E as (mid & post & E & X).
      by exists EmptyString, mid, post.
    + rewrite IH. split.
      * intros (pre & mid & post & -> & X). by exists (String c pre), mid, post.
      * intros (pre & mid & post & E' & X). destruct pre as [|c' pre].
        -- rewrite app_empty_l in E'.
           assert (Regex.match_here r (String c s) = true)
             by (apply match_here_spec; eauto).
           congruence.
        -- rewrite app_cons in E'. injection E' as -> ->. eauto.
Qed.


Lemma exact_literal p mid :
  exact (literal_atoms p) mid = true <-> Js.toLowerCase mid = Js.toLowerCase p.
Proof.
  revert mid. induction p as [|c p IH]; intros [|a mid]; simpl; try done.
  rewrite andb_true_iff, bool_decide_eq_true, canonicalize_lower, IH.
  unfold Js.toLowerCase. simpl. split.
  - intros [A B]. by rewrite A, B.
  - intros E. injection E as A B. by rewrite A, B.
Qed.








(** ** The addressing policy *)

Lemma others_empty_size bot_id sender dist :
  others bot_id sender dist = ∅ <-> size (others bot_id sender dist) = 0.
Proof.
  split.
  - intros ->. apply size_empty.
  - intros H. apply leibniz_equiv. by apply size_empty_inv.
Qed.


(** Containing a name up to case can be computed, whatever the name. *)
Lemma contains_ci_search text name :
  contains_ci text name <-> is_Some (Regex.search (literal_atoms name) text 0).
Proof.
  rewrite search_spec. split.
  - intros (pre & mid & post & E & X). apply exact_literal in X. eauto.
  - intros (pre & mid & post & E & X). apply exact_literal in X.
    by exists pre, mid, post.
Qed.

Lemma not_contained_ci text name :
  Regex.search (literal_atoms name) text 0 = None -> ~ contains_ci text name.
Proof. intros S C. apply contains_ci_search in C. rewrite S in C. by destruct C. Qed.

(** The dot of a tag slug is a wildcard: the bot answers in a group to a
    text that does not contain its slug. *)
Example slug_dot_is_a_wildcard :
  needsResponse Addressing.W "bot-2" Addressing.dotted "alice" Addressing.room
    "ask cobolXbot" = Normal (VBool true)
  /\ ~ contains_ci "ask cobolXbot" (first_name Addressing.dotted)
  /\ ~ contains_ci "ask cobolXbot" (last_name Addressing.dotted)
  /\ ~ contains_ci "ask cobolXbot" (slug (tag Addressing.dotted)).
Proof.
  split; [vm_compute; reflexivity|].
  split; [|split]; by apply not_contained_ci.
Qed.



(** ** The registry of handlers *)

Lemma lower_char_not_capital c : Js.is_AZ c = true -> Js.is_AZ (Js.lower_char c) = false.
Proof.
  intros H.
  pose proof (for_all_chars
    (fun c => implb (Js.is_AZ c) (negb (Js.is_AZ (Js.lower_char c))))
    ltac:(vm_compute; reflexivity) c) as A.
  cbv beta in A. rewrite H in A. simpl in A. by apply negb_true_iff in A.
Qed.

Lemma replace_capitals_no_capitals s : no_capitals (Js.replace_capitals s) = true.
Proof.
  induction s as [|c s IH]; simpl; [done|].
  destruct (Js.is_AZ c) eqn:E; simpl.
  - by rewrite (lower_char_not_capital _ E), IH.
  - by rewrite E, IH.
Qed.

Lemma handle_prefix rest :
  "handle" +:+ rest
  = String "h" (String "a" (String "n" (String "d" (String "l" (String "e" rest))))).
Proof. reflexivity. Qed.

(** The key of a method named [handle] followed by a capitalised word. *)
Lemma intent_name_handle c rest :
  Js.is_AZ c = true ->
  intent_name ("handle" +:+ String c rest)
  = String (Js.lower_char c) (Js.replace_capitals rest).
Proof.
  intros H. rewrite handle_prefix. unfold intent_name. simpl. by rewrite H.
Qed.

Lemma handlers_eq :
  handlers = list_to_map
    [ ("name.agent.get", m_handleNameAgentGet);
      ("name.agent.change", m_handleNameAgentChange);
      ("name.agent.delete", m_handleNameAgentDelete) ].
Proof. vm_compute. reflexivity. Qed.

(** Only the three handlers are registered. *)
Lemma handlers_range name m :
  handlers !! name = Some m ->
  m = m_handleNameAgentGet \/ m = m_handleNameAgentChange
  \/ m = m_handleNameAgentDelete.
Proof.
  rewrite handlers_eq. intros H.
  apply elem_of_list_to_map_2 in H. apply list_elem_of_In in H. simpl in H.
  destruct H as [H|[H|[H|[]]]]; injection H as _ <-; tauto.
Qed.

(** C3.  A method named [handle] followed by a capitalised word is
    handler-shaped; its key is its dotted lower-case form (a dot and the
    lower-case letter for every capital) without the prefix [handle.], and
    holds no capital.  [handleNameAgentGet] has the key [name.agent.get].
    Every handler-shaped method of the class is of that form and is
    registered under its key; the registry holds these three entries and
    no other. *)
Theorem intent_registry :
  (forall c rest, Js.is_AZ c = true ->
     let prop := "handle" +:+ String c rest in
     Js.startsWith prop "handle" = true
     /\ "handle." +:+ intent_name prop = Js.replace_capitals prop
     /\ no_capitals (intent_name prop) = true)
  /\ intent_name "handleNameAgentGet" = "name.agent.get"
  /\ (forall prop m, (prop, m) ∈ prototype ->
      Js.startsWith prop "handle" = true ->
      (exists c rest, prop = "handle" +:+ String c rest /\ Js.is_AZ c = true)
      /\ handlers !! intent_name prop = Some m)
  /\ handlers = list_to_map
       [ ("name.agent.get", m_handleNameAgentGet);
         ("name.agent.change", m_handleNameAgentChange);
         ("name.agent.delete", m_handleNameAgentDelete) ]
  /\ findHandler "name.agent.get" = Some m_handleNameAgentGet.
Proof.
  split; [|split; [|split; [|split]]].
  - intros c rest H prop. subst prop. split; [|split].
    + by rewrite handle_prefix.
    + rewrite (intent_name_handle _ _ H), handle_prefix. simpl. by rewrite H.
    + rewrite (intent_name_handle _ _ H). simpl.
      by rewrite (lower_char_not_capital _ H), replace_capitals_no_capitals.
  - reflexivity.
  - intros prop m In S. apply list_elem_of_In in In. simpl in In.
    repeat (destruct In as [In|In]; [injection In as <- <-|]);
      try done; try discriminate S.
    + split; [by exists "N"%char, "ameAgentGet"|by vm_compute].
    + split; [by exists "N"%char, "ameAgentChange"|by vm_compute].
    + split; [by exists "N"%char, "ameAgentDelete"|by vm_compute].
  - exact handlers_eq.
  - vm_compute. reflexivity.
Qed.

Lemma intent_registry_witness :
  intent_name "handleNameAgentChange" = "name.agent.change"
  /\ "handle." +:+ intent_name "handleNameAgentChange"
     = Js.replace_capitals "handleNameAgentChange"
  /\ handlers !! intent_name "handleNameAgentDelete" = Some m_handleNameAgentDelete.
Proof.
  destruct intent_registry as (K & _ & R & _ & _).
  destruct (K "N"%char "ameAgentChange" eq_refl) as (_ & P & _).
  split; [reflexivity|split; [exact P|]].
  apply (R "handleNameAgentDelete" m_handleNameAgentDelete); [|reflexivity].
  apply list_elem_of_In. simpl. tauto.
Defined.

(** ** Traces *)

Lemma sent_app t u : sent (t ++ u) = sent t ++ sent u.
Proof. apply omap_app. Qed.

Lemma fetches_app t u : fetches (t ++ u) = fetches t ++ fetches u.
Proof. apply omap_app. Qed.


Lemma only_fetches_refl st : only_fetches st st.
Proof. split; [done|]. exists []. by rewrite app_nil_r. Qed.

Lemma only_fetches_trans a b c :
  only_fetches a b -> only_fetches b c -> only_fetches a c.
Proof.
  intros [C1 (t1 & T1 & F1)] [C2 (t2 & T2 & F2)]. split; [congruence|].
  exists (t1 ++ t2). split; [by rewrite T2, T1, app_assoc|by apply Forall_app].
Qed.

Lemma only_fetches_sent st st' : only_fetches st st' -> sent (trace st') = sent (trace st).
Proof.
  intros [_ (t & -> & F)]. rewrite sent_app.
  assert (sent t = []) as ->; [|by rewrite app_nil_r].
  induction F as [|e t He _ IH]; [done|]. by destruct e.
Qed.


(** ** The directory updates *)

Lemma updateBotUser_eq W updates st :
  updateBotUser W updates st =
  match fetch_user W (trace st) (user_url st) updates with
  | Normal b => (Normal b, set_bot b (log (EFetch (user_url st) updates) st))
  | Throw e => (Throw e, log (EFetch (user_url st) updates) st)
  end.
Proof.
  unfold updateBotUser, bind, get, call, modify, ret, user_url.
  by destruct (fetch_user _ _ _ _).
Qed.

Lemma update_and_confirm_eq W updates st :
  update_and_confirm W updates st =
  match fetch_user W (trace st) (user_url st) updates with
  | Normal b => (Normal (VString (full_name_reply b)),
                 set_bot b (log (EFetch (user_url st) updates) st))
  | Throw e => (Throw e, log (EFetch (user_url st) updates) st)
  end.
Proof.
  unfold update_and_confirm, bind. rewrite updateBotUser_eq.
  by destruct (fetch_user _ _ _ _).
Qed.

Lemma updateBotTag_eq W updates st :
  updateBotTag W updates st =
  match fetch_tag W (trace st) (tag_url st) updates with
  | Normal t => (Normal t, set_bot (with_tag (bot st) t)
                             (log (EFetch (tag_url st) updates) st))
  | Throw e => (Throw e, log (EFetch (tag_url st) updates) st)
  end.
Proof.
  unfold updateBotTag, bind, get, call, modify, ret, tag_url.
  by destruct (fetch_tag _ _ _ _).
Qed.

Lemma only_fetches_log url json st : only_fetches st (log (EFetch url json) st).
Proof. split; [done|]. exists [EFetch url json]. split; [done|]. by repeat constructor. Qed.

Lemma only_fetches_set_bot b st st' : only_fetches st st' -> only_fetches st (set_bot b st').
Proof. by intros [? ?]. Qed.

Lemma update_and_confirm_fetches W updates st :
  only_fetches st (update_and_confirm W updates st).2
  /\ fetches (trace (update_and_confirm W updates st).2)
     = fetches (trace st) ++ [(user_url st, updates)].
Proof.
  rewrite update_and_confirm_eq.
  destruct (fetch_user _ _ _ _); simpl; (split; [|by rewrite fetches_app]).
  - apply only_fetches_set_bot, only_fetches_log.
  - apply only_fetches_log.
Qed.

(** ** The delete handler *)

(** C4, as the code has it.  Without a type, and for the types
    [first name], [last name] and [tag], the delete handler returns a
    refusal and leaves the state as it was: no call is made.  For
    [middle name] it issues one update, which sets [middle_name] to the
    empty string, and confirms with the names the directory answers. *)
Theorem delete_handler_updates (W : World) (params : Params) (st : State) :
  let r := handleNameAgentDelete W params st in
  (present (p_type params) = None -> r = (Normal (VString refuse_whole_name), st))
  /\ (p_type params = Some "first name" ->
      r = (Normal (VString "I must have a first name!"), st))
  /\ (p_type params = Some "last name" ->
      r = (Normal (VString "I must have a last name!"), st))
  /\ (p_type params = Some "tag" -> r = (Normal (VString "I must have a tag!"), st))
  /\ (p_type params = Some "middle name" ->
      fetches (trace r.2)
      = fetches (trace st) ++ [(user_url st, {[ "middle_name" := VString EmptyString ]})]
      /\ forall b,
          fetch_user W (trace st) (user_url st)
            {[ "middle_name" := VString EmptyString ]} = Normal b ->
          r.1 = Normal (VString (full_name_reply b)) /\ bot r.2 = b).
Proof.
  unfold handleNameAgentDelete. cbv zeta.
  split; [|split; [|split; [|split]]].
  - by intros ->.
  - by intros ->.
  - by intros ->.
  - by intros ->.
  - intros ->. simpl. split; [apply update_and_confirm_fetches|].
    intros b F. by rewrite update_and_confirm_eq, F.
Qed.

(** A type that is none of the four known ones is reported on the console,
    and the handler goes on to the update, which then carries no field. *)
Lemma delete_unhandled_type (W : World) (params : Params) (st : State) (ty : string) :
  present (p_type params) = Some ty ->
  ty <> "first name" -> ty <> "last name" -> ty <> "middle name" -> ty <> "tag" ->
  fetches (trace (handleNameAgentDelete W params st).2)
  = fetches (trace st) ++ [(user_url st, ∅)].
Proof.
  unfold handleNameAgentDelete. intros -> N1 N2 N3 N4.
  repeat (destruct (decide _); [done|]). apply update_and_confirm_fetches.
Qed.

(** C4 as stated fails: for a type that is none of the four known ones the
    handler does issue an update call, although the type is not
    [middle name]. *)
Lemma delete_unknown_type_updates :
  p_type (Deleting.of_type "nickname") <> Some "middle name"
  /\ fetches (trace (handleNameAgentDelete Deleting.W (Deleting.of_type "nickname") Deleting.st0).2)
     = [("/v1/user/bot-1/", ∅)]
  /\ fetches (trace Deleting.st0) = [].
Proof. split; [done|split]; vm_compute; reflexivity. Qed.

Lemma delete_handler_updates_witness :
  handleNameAgentDelete Deleting.W {| p_type := None; p_name := None |} Deleting.st0
    = (Normal (VString refuse_whole_name), Deleting.st0)
  /\ handleNameAgentDelete Deleting.W (Deleting.of_type "first name") Deleting.st0
    = (Normal (VString "I must have a first name!"), Deleting.st0)
  /\ handleNameAgentDelete Deleting.W (Deleting.of_type "last name") Deleting.st0
    = (Normal (VString "I must have a last name!"), Deleting.st0)
  /\ handleNameAgentDelete Deleting.W (Deleting.of_type "tag") Deleting.st0
    = (Normal (VString "I must have a tag!"), Deleting.st0)
  /\ fetches (trace (handleNameAgentDelete Deleting.W (Deleting.of_type "middle name") Deleting.st0).2)
    = [("/v1/user/bot-1/", {[ "middle_name" := VString EmptyString ]})]
  /\ (handleNameAgentDelete Deleting.W (Deleting.of_type "middle name") Deleting.st0).1
    = Normal (VString "Okay, I'm now Ada  Lovelace").
Proof.
  split; [|split; [|split; [|split; [|split]]]].
  - by apply (delete_handler_updates Deleting.W {| p_type := None; p_name := None |} Deleting.st0).
  - by apply (delete_handler_updates Deleting.W (Deleting.of_type "first name") Deleting.st0).
  - by apply (delete_handler_updates Deleting.W (Deleting.of_type "last name") Deleting.st0).
  - by apply (delete_handler_updates Deleting.W (Deleting.of_type "tag") Deleting.st0).
  - destruct (delete_handler_updates Deleting.W (Deleting.of_type "middle name") Deleting.st0)
      as (_ & _ & _ & _ & M).
    by destruct (M eq_refl) as [F _].
  - destruct (delete_handler_updates Deleting.W (Deleting.of_type "middle name") Deleting.st0)
      as (_ & _ & _ & _ & M).
    destruct (M eq_refl) as [_ R].
    by destruct (R (Sample.echo_user {[ "middle_name" := VString EmptyString ]}) eq_refl).
Defined.

(** ** Splitting and replacing on white space *)

Lemma split_ws_from_nonempty b cur s : Js.split_ws_from b cur s <> [].
Proof.
  revert b cur. induction s as [|c s IH]; intros b cur; simpl; [done|].
  destruct (Js.is_whitespace c); [destruct b|]; done.
Qed.

Lemma join_cons sep x l : l <> [] -> Js.join sep (x :: l) = x +:+ sep +:+ Js.join sep l.
Proof. by destruct l. Qed.

(** Replacing the runs by a separator is joining the pieces with it. *)
Lemma join_split_ws_from sep s :
  forall b cur,
    Js.join sep (Js.split_ws_from b cur s) = cur +:+ Js.replace_ws_from b sep s.
Proof.
  induction s as [|c s IH]; intros b cur; simpl.
  - by rewrite app_empty_r.
  - destruct (Js.is_whitespace c).
    + destruct b; [apply IH|].
      rewrite join_cons by apply split_ws_from_nonempty.
      by rewrite IH, app_empty_l.
    + rewrite IH. by rewrite app_assoc'.
Qed.

Lemma replace_ws_runs_join s sep :
  Js.replace_ws_runs s sep = Js.join sep (Js.split_ws_from false EmptyString s).
Proof. by rewrite join_split_ws_from, app_empty_l. Qed.

Lemma no_whitespace_snoc s c :
  no_whitespace s = true -> Js.is_whitespace c = false ->
  no_whitespace (s +:+ String c EmptyString) = true.
Proof.
  intros H C. induction s as [|a s IH]; simpl in *.
  - by rewrite C.
  - apply andb_true_iff in H as [A H]. rewrite ?app_cons. simpl.
    by rewrite A, (IH H).
Qed.

(** No piece of a split holds white space. *)
Lemma split_ws_from_pieces s :
  forall b cur, no_whitespace cur = true ->
    Forall (fun p => no_whitespace p = true) (Js.split_ws_from b cur s).
Proof.
  induction s as [|c s IH]; intros b cur H; simpl.
  - by constructor.
  - destruct (Js.is_whitespace c) eqn:C.
    + destruct b; [by apply IH|]. constructor; [done|]. by apply IH.
    + apply IH. by apply no_whitespace_snoc.
Qed.

Lemma split_ws_length s n : 1 <= n -> 1 <= length (Js.split_ws s n) <= n.
Proof.
  intros H. unfold Js.split_ws. rewrite length_take.
  pose proof (split_ws_from_nonempty false EmptyString s).
  destruct (Js.split_ws_from false EmptyString s); [done|]. simpl. lia.
Qed.

Lemma split_ws_pieces s n : Forall (fun p => no_whitespace p = true) (Js.split_ws s n).
Proof. apply Forall_take. by apply split_ws_from_pieces. Qed.

(** The separator replaces whole runs: with a separator free of white
    space, none is left. *)
Lemma no_whitespace_app s t :
  no_whitespace s = true -> no_whitespace t = true -> no_whitespace (s +:+ t) = true.
Proof.
  intros H T. induction s as [|a s IH]; simpl in *; [done|].
  apply andb_true_iff in H as [A H]. rewrite ?app_cons. simpl. by rewrite A, (IH H).
Qed.

Lemma replace_ws_from_no_whitespace sep s b :
  no_whitespace sep = true -> no_whitespace (Js.replace_ws_from b sep s) = true.
Proof.
  intros H. revert b. induction s as [|c s IH]; intros b; simpl; [done|].
  destruct (Js.is_whitespace c) eqn:C.
  - destruct b; [apply IH|]. by apply no_whitespace_app.
  - simpl. by rewrite C, IH.
Qed.

Lemma lower_char_whitespace c : Js.is_whitespace (Js.lower_char c) = Js.is_whitespace c.
Proof.
  pose proof (for_all_chars
    (fun c => Bool.eqb (Js.is_whitespace (Js.lower_char c)) (Js.is_whitespace c))
    ltac:(vm_compute; reflexivity) c) as A.
  by apply Bool.eqb_prop in A.
Qed.

Lemma lower_char_no_capital c : Js.is_AZ (Js.lower_char c) = false.
Proof.
  pose proof (for_all_chars (fun c => negb (Js.is_AZ (Js.lower_char c)))
    ltac:(vm_compute; reflexivity) c) as A.
  by apply negb_true_iff in A.
Qed.

Lemma toLowerCase_no_whitespace s :
  no_whitespace s = true -> no_whitespace (Js.toLowerCase s) = true.
Proof.
  unfold Js.toLowerCase. induction s as [|c s IH]; simpl; [done|].
  intros [A H]%andb_true_iff. by rewrite lower_char_whitespace, A, (IH H).
Qed.

Lemma toLowerCase_no_capitals s : no_capitals (Js.toLowerCase s) = true.
Proof.
  unfold Js.toLowerCase. induction s as [|c s IH]; simpl; [done|].
  by rewrite lower_char_no_capital, IH.
Qed.

(** ** The change handler *)

(** C6.  With the type [tag] and a name, the change handler sends the
    directory the slug made from the name: the pieces between runs of white
    space joined by single dots, in lower case, so that it holds neither
    white space nor a capital.  When the directory answers, the reply is a
    string that contains the slug of the bot's tag as it is from then on,
    which is the slug that was sent when the directory stored it as sent. *)
Theorem change_tag_slug (W : World) (name : string) (st : State) (t : Tag) :
  let params := {| p_type := Some "tag"; p_name := Some name |} in
  let wanted := Js.toLowerCase (Js.replace_ws_runs name ".") in
  fetch_tag W (trace st) (tag_url st) {[ "slug" := VString wanted ]} = Normal t ->
  wanted = Js.toLowerCase (Js.join "." (Js.split_ws_from false EmptyString name))
  /\ no_whitespace wanted = true
  /\ no_capitals wanted = true
  /\ exists reply st',
      handleNameAgentChange W params st = (Normal (VString reply), st')
      /\ fetches (trace st')
         = fetches (trace st) ++ [(tag_url st, {[ "slug" := VString wanted ]})]
      /\ slug (tag (bot st')) = slug t
      /\ contains reply (slug (tag (bot st')))
      /\ (slug t = wanted -> contains reply wanted).
Proof.
  intros params wanted F. split; [|split; [|split]].
  - unfold wanted. by rewrite replace_ws_runs_join.
  - apply toLowerCase_no_whitespace. by apply replace_ws_from_no_whitespace.
  - apply toLowerCase_no_capitals.
  - unfold handleNameAgentChange, params. simpl. unfold bind.
    rewrite updateBotTag_eq. fold wanted. rewrite F. simpl.
    eexists _, _. split; [reflexivity|]. simpl.
    assert (contains ("Okay, my tag is now @" +:+ slug t +:+ ":"
                        +:+ org_slug (org (bot st))) (slug t)) as C.
    { by exists "Okay, my tag is now @", (":" +:+ org_slug (org (bot st))). }
    split; [by rewrite fetches_app|]. split; [done|]. split; [done|].
    by intros <-.
Qed.

Lemma change_tag_slug_witness :
  Js.toLowerCase (Js.replace_ws_runs "New Name" ".") = "new.name"
  /\ exists reply st',
      handleNameAgentChange Changing.W {| p_type := Some "tag"; p_name := Some "New Name" |}
        Changing.st0 = (Normal (VString reply), st')
      /\ fetches (trace st') = [("/v1/tag/tag-1/", {[ "slug" := VString "new.name" ]})]
      /\ contains reply "new.name".
Proof.
  split; [reflexivity|].
  destruct (change_tag_slug Changing.W "New Name" Changing.st0
              {| tag_id := "tag-1"; slug := "new.name" |} eq_refl)
    as (_ & _ & _ & reply & st' & E & F & _ & _ & C).
  exists reply, st'. split; [exact E|]. split; [exact F|]. by apply C.
Defined.

(** C7.  Without a type and with a name, the change handler splits the
    name on runs of white space into one, two or three pieces, none of
    which holds white space, and issues one update: of [first_name] alone
    for one piece; of [first_name] and [last_name] for two; of
    [first_name], [middle_name] and [last_name] for three. *)
Theorem change_free_form (W : World) (params : Params) (name : string) (st : State) :
  present (p_type params) = None ->
  present (p_name params) = Some name ->
  let names := Js.split_ws name 3 in
  let r := handleNameAgentChange W params st in
  1 <= length names <= 3
  /\ Forall (fun p => no_whitespace p = true) names
  /\ exists updates,
      fetches (trace r.2) = fetches (trace st) ++ [(user_url st, updates)]
      /\ ((exists a, names = [a] /\ updates = {[ "first_name" := VString a ]})
          \/ (exists a b, names = [a; b]
              /\ updates = <[ "last_name" := VString b ]>
                             {[ "first_name" := VString a ]})
          \/ (exists a b c, names = [a; b; c]
              /\ updates = <[ "last_name" := VString c ]>
                             (<[ "middle_name" := VString b ]>
                                {[ "first_name" := VString a ]}))).
Proof.
  intros T N names r.
  pose proof (split_ws_length name 3 ltac:(lia)) as L. fold names in L.
  split; [exact L|]. split; [apply split_ws_pieces|].
  unfold r, handleNameAgentChange. rewrite T, N. fold names.
  destruct names as [|a [|b [|c [|d names]]]]; simpl in L; try lia; simpl.
  - eexists. split; [apply update_and_confirm_fetches|]. left. eauto.
  - eexists. split; [apply update_and_confirm_fetches|]. right. left. eauto.
  - eexists. split; [apply update_and_confirm_fetches|]. right. right. eauto.
Qed.

Lemma change_free_form_witness :
  exists updates,
    fetches (trace (handleNameAgentChange Changing.W
                      {| p_type := None; p_name := Some "Ada Lovelace" |} Changing.st0).2)
    = [("/v1/user/bot-1/", updates)]
    /\ updates = <[ "last_name" := VString "Lovelace" ]>
                   {[ "first_name" := VString "Ada" ]}
    /\ updates !! "middle_name" = None.
Proof.
  destruct (change_free_form Changing.W {| p_type := None; p_name := Some "Ada Lovelace" |}
              "Ada Lovelace" Changing.st0 eq_refl eq_refl)
    as (_ & _ & updates & F & [(a & E & U)|[(a & b & E & U)|(a & b & c & E & U)]]);
    try discriminate E.
  injection E as <- <-. exists updates. split; [exact F|]. split; [exact U|].
  by rewrite U.
Defined.

(** ** The listener, unfolded *)

Lemma resolve_eq W expr st :
  resolve W expr st =
  match distCache st !! expr with
  | Some d => (Normal d, st)
  | None =>
      match resolveTags W (trace st) expr with
      | Normal d => (Normal d, set_cache expr d (log (EResolveTags expr) st))
      | Throw e => (Throw e, log (EResolveTags expr) st)
      end
  end.
Proof.
  unfold resolve, bind, get, call, modify, ret.
  destruct (distCache st !! expr) as [d|] eqn:E.
  - destruct (decide (is_Some (Some d))) as [_|N]; [|by destruct N; eauto].
    by rewrite E.
  - destruct (decide (is_Some None)) as [[? ?]|_]; [done|].
    destruct (resolveTags W (trace st) expr); [|done].
    simpl. by rewrite lookup_insert_eq.
Qed.

Lemma compose_eq im d thread aiResp st :
  compose im d thread aiResp st =
  match im (action aiResp) with
  | None => (Normal (finished (action aiResp) (base_msg d thread aiResp)), st)
  | Some h =>
      (Normal (finished (action aiResp)
                 (merged (base_msg d thread aiResp) (h (parameters aiResp) st).1)),
       (h (parameters aiResp) st).2)
  end.
Proof.
  unfold compose, bind, try_catch, ret. fold (base_msg d thread aiResp).
  destruct (im (action aiResp)) as [h|]; [|done].
  destruct (h (parameters aiResp) st) as [[res|e] st']; [|done].
  by destruct res.
Qed.

Lemma on_message_eq W im bot_id ev st :
  on_message W im bot_id ev st =
  match message_text ev with
  | None => (Normal tt, st)
  | Some text =>
      match resolve W (expression ev) st with
      | (Throw e, st1) => (Throw e, st1)
      | (Normal d, st1) =>
          match needsResponse W bot_id (bot st1) (source ev) d text with
          | Throw e => (Throw e, st1)
          | Normal v =>
              if truthy v then
                let st2 := log (ETextRequest text (threadId ev)) st1 in
                match textRequest W (trace st1) text (threadId ev) with
                | Throw e => (Throw e, st2)
                | Normal aiResp =>
                    match compose im d (threadId ev) aiResp st2 with
                    | (Normal m, st3) => (send W (trace st3) m, log (ESend m) st3)
                    | (Throw e, st3) => (Throw e, st3)
                    end
                end
              else (Normal tt, st1)
          end
      end
  end.
Proof.
  unfold on_message. destruct (message_text ev) as [text|]; [|done].
  unfold bind, get, lift, call, ret.
  destruct (resolve W (expression ev) st) as [[d|e] st1]; [|done].
  destruct (needsResponse W bot_id (bot st1) (source ev) d text) as [v|e]; [|done].
  destruct (truthy v); [|done].
  by destruct (textRequest W (trace st1) text (threadId ev)).
Qed.

(** Resolving sends nothing and updates nothing. *)
Lemma resolve_sent W expr st :
  sent (trace (resolve W expr st).2) = sent (trace st).
Proof.
  rewrite resolve_eq. destruct (distCache st !! expr); [done|].
  destruct (resolveTags W (trace st) expr); simpl;
    by rewrite sent_app, app_nil_r.
Qed.

Section Qualifying.

(** A message that has a text, whose distribution resolves, and that the
    bot must answer. *)
Variables (W : World) (im : manager) (bot_id : string) (ev : Event) (st : State).
Variables (text : string) (d : Distribution) (st1 : State) (v : value).
Hypothesis has_text : message_text ev = Some text.
Hypothesis resolved : resolve W (expression ev) st = (Normal d, st1).
Hypothesis needs : needsResponse W bot_id (bot st1) (source ev) d text = Normal v.
Hypothesis wanted : truthy v = true.

Lemma qualifying_eq :
  on_message W im bot_id ev st =
  match textRequest W (trace st1) text (threadId ev) with
  | Throw e => (Throw e, asked ev text st1)
  | Normal aiResp =>
      match compose im d (threadId ev) aiResp (asked ev text st1) with
      | (Normal m, st3) => (send W (trace st3) m, log (ESend m) st3)
      | (Throw e, st3) => (Throw e, st3)
      end
  end.
Proof. by rewrite on_message_eq, has_text, resolved, needs, wanted. Qed.

Lemma qualifying_sent : sent (trace (asked ev text st1)) = sent (trace st).
Proof.
  unfold asked. simpl. rewrite sent_app, app_nil_r.
  change st1 with (Normal d, st1).2. rewrite <- resolved. apply resolve_sent.
Qed.

End Qualifying.

(** ** The response composer *)

Lemma field_insert_eq (m : gmap string value) k x : field (<[k := x]> m) k = x.
Proof. unfold field. by rewrite lookup_insert_eq. Qed.


(** Whatever the handler did, the finished message has a truthy text. *)
Lemma finished_truthy action m : truthy (field (finished action m) "text") = true.
Proof.
  unfold finished. destruct (truthy (field m "text")) eqn:E; [done|].
  by rewrite field_insert_eq.
Qed.

Lemma finished_text_falsy action m :
  truthy (field m "text") = false ->
  finished action m !! "text" = Some (VString (nothing_to_do action)).
Proof. intros E. unfold finished. rewrite E. apply lookup_insert_eq. Qed.

Lemma finished_text_truthy action m :
  truthy (field m "text") = true -> finished action m = m.
Proof. intros E. unfold finished. by rewrite E. Qed.

Lemma base_msg_text d thread aiResp :
  field (base_msg d thread aiResp) "text" = VString (speech aiResp).
Proof. reflexivity. Qed.

Lemma sent_log_send m st : sent (trace (log (ESend m) st)) = sent (trace st) ++ [m].
Proof. simpl. by rewrite sent_app. Qed.





(** C9.  When the NLU request fails, the listener's promise is rejected
    with that failure right after the request: nothing is composed and
    nothing is sent. *)
Theorem nlu_failure_no_reply (W : World) (im : manager) (bot_id : string) (ev : Event)
    (st : State) (text : string) (d : Distribution) (st1 : State) (v : value)
    (e : exn) :
  message_text ev = Some text ->
  resolve W (expression ev) st = (Normal d, st1) ->
  needsResponse W bot_id (bot st1) (source ev) d text = Normal v ->
  truthy v = true ->
  textRequest W (trace st1) text (threadId ev) = Throw e ->
  on_message W im bot_id ev st
    = (Throw e, log (ETextRequest text (threadId ev)) st1)
  /\ sent (trace (on_message W im bot_id ev st).2) = sent (trace st).
Proof.
  intros Ht Hr Hn Hw Hq.
  rewrite (qualifying_eq W im bot_id ev st text d st1 v Ht Hr Hn Hw), Hq.
  split; [done|]. apply (qualifying_sent W ev st text d st1 Hr).
Qed.

Lemma nlu_failure_no_reply_witness :
  listener Outage.W "bot-1" (Sample.dm "hi") Fallback.st0
    = (Throw (Failure "Error: connection reset"),
       log (ETextRequest "hi" "thread-1") Fallback.st1)
  /\ sent (trace (listener Outage.W "bot-1" (Sample.dm "hi") Fallback.st0).2) = [].
Proof.
  exact (nlu_failure_no_reply Outage.W (intentManager Outage.W) "bot-1" (Sample.dm "hi")
           Fallback.st0 "hi" Fallback.pair Fallback.st1 (VBool true)
           (Failure "Error: connection reset")
           eq_refl eq_refl eq_refl eq_refl eq_refl).
Defined.

Lemma apology_text_truthy e : truthy (VString (apology_text e)) = true.
Proof. reflexivity. Qed.

(** C8.  When the handler of the action throws (or its promise is
    rejected) with [e], the message is sent all the same, right after the
    handler: its text is the apology with the printed error between
    parentheses, its html the apology with the printed error inside a
    [pre] element; distribution and thread are those of the message. *)
Theorem handler_failure_apology (W : World) (im : manager) (bot_id : string)
    (ev : Event) (st : State) (text : string) (d : Distribution) (st1 : State)
    (v : value) (aiResp : AiResult) (h : Params -> M value) (e : exn) (st3 : State) :
  message_text ev = Some text ->
  resolve W (expression ev) st = (Normal d, st1) ->
  needsResponse W bot_id (bot st1) (source ev) d text = Normal v ->
  truthy v = true ->
  textRequest W (trace st1) text (threadId ev) = Normal aiResp ->
  im (action aiResp) = Some h ->
  h (parameters aiResp) (log (ETextRequest text (threadId ev)) st1) = (Throw e, st3) ->
  exists m,
    on_message W im bot_id ev st = (send W (trace st3) m, log (ESend m) st3)
    /\ trace (on_message W im bot_id ev st).2 = trace st3 ++ [ESend m]
    /\ m !! "text" = Some (VString (apology_text e))
    /\ m !! "html" = Some (VString (apology_html e))
    /\ m !! "distribution" = Some (distribution_value d)
    /\ m !! "threadId" = Some (VString (threadId ev))
    /\ contains (apology_text e) (exn_to_string e)
    /\ contains (apology_html e) ("<pre>" +:+ exn_to_string e +:+ "</pre>").
Proof.
  intros Ht Hr Hn Hw Hq Hf Hh.
  rewrite (qualifying_eq W im bot_id ev st text d st1 v Ht Hr Hn Hw), Hq.
  rewrite compose_eq, Hf. unfold asked. rewrite Hh. cbn [fst snd merged].
  rewrite finished_text_truthy.
  2:{ unfold field. rewrite lookup_insert_ne by done. by rewrite lookup_insert_eq. }
  eexists. split; [reflexivity|]. split; [reflexivity|].
  split; [by rewrite lookup_insert_ne, lookup_insert_eq|].
  split; [by rewrite lookup_insert_eq|].
  split; [by rewrite !lookup_insert_ne|].
  split; [by rewrite !lookup_insert_ne|].
  split.
  - by exists ("Affraid I can't do that boss..." +:+ newline +:+ "("), ")".
  - exists "Affraid I can't do that boss...<br/>", EmptyString.
    by rewrite app_empty_r.
Qed.

Lemma handler_failure_apology_witness :
  exists m,
    trace (listener Failing.W "bot-1" (Sample.dm "hi") Fallback.st0).2
      = trace Failing.failed ++ [ESend m]
    /\ m !! "text"
       = Some (VString ("Affraid I can't do that boss..." +:+ newline
                          +:+ "(Error: 500)"))
    /\ m !! "html"
       = Some (VString "Affraid I can't do that boss...<br/><pre>Error: 500</pre>").
Proof.
  destruct (handler_failure_apology Failing.W (intentManager Failing.W) "bot-1"
              (Sample.dm "hi") Fallback.st0 "hi" Fallback.pair Fallback.st1 (VBool true)
              {| action := "name.agent.delete";
                 parameters := {| p_type := Some "middle name"; p_name := None |};
                 speech := "Done." |}
              (call_method Failing.W m_handleNameAgentDelete)
              (Failure "Error: 500") Failing.failed
              eq_refl eq_refl eq_refl eq_refl eq_refl eq_refl eq_refl)
    as (m & _ & T & X & H & _).
  exists m. split; [exact T|]. split; [exact X|exact H].
Defined.



(** ** The distribution cache *)

(** The handlers of the program touch neither the cache nor the resolver:
    all they issue are directory updates. *)
Lemma call_method_only_fetches W m params st :
  only_fetches st (call_method W m params st).2.
Proof.
  destruct m; simpl; try apply only_fetches_refl.
  - unfold handleNameAgentGet, bind, get, ret.
    destruct (present (p_type params)).
    + repeat (destruct (decide _); [apply only_fetches_refl|]).
      apply only_fetches_refl.
    + repeat (destruct (Qlt_le_dec _ _); [apply only_fetches_refl|]).
      apply only_fetches_refl.
  - unfold handleNameAgentChange.
    destruct (present (p_type params)).
    + repeat (destruct (decide _); [apply update_and_confirm_fetches|]).
      destruct (decide _); [|apply update_and_confirm_fetches].
      destruct (p_name params); [|apply only_fetches_refl].
      unfold bind. rewrite updateBotTag_eq.
      destruct (fetch_tag _ _ _ _); simpl.
      * apply only_fetches_set_bot, only_fetches_log.
      * apply only_fetches_log.
    + destruct (present (p_name params)); [|apply only_fetches_refl].
      apply update_and_confirm_fetches.
  - unfold handleNameAgentDelete.
    destruct (present (p_type params)); [|apply only_fetches_refl].
    repeat (destruct (decide _);
            [first [apply only_fetches_refl|apply update_and_confirm_fetches]|]).
    apply update_and_confirm_fetches.
Qed.











(** * Further properties of the code *)

(** ** Messages the listener leaves alone *)

Lemma first_text_none parts :
  Forall (fun p : string * string => p.1 <> "text/plain") parts ->
  first_text parts = None.
Proof.
  induction 1 as [|[ty v] parts N _ IH]; simpl; [done|].
  by destruct (decide (ty = "text/plain")).
Qed.

Lemma first_text_first before v rest :
  Forall (fun p : string * string => p.1 <> "text/plain") before ->
  first_text (before ++ ("text/plain", v) :: rest) = Some v.
Proof.
  induction 1 as [|[ty w] parts N _ IH]; simpl; [done|].
  by destruct (decide (ty = "text/plain")).
Qed.

(** X1.  A message without a body, without a part of type [text/plain], or
    whose first such part is empty (even when a later one has text) is
    dropped before anything is done: no call is made and the state,
    cache included, stays as it was. *)
Theorem no_text_no_effect (W : World) (im : manager) (bot_id : string)
    (ev : Event) (st : State) :
  body ev = None
  \/ (exists parts, body ev = Some parts
        /\ Forall (fun p : string * string => p.1 <> "text/plain") parts)
  \/ (exists before rest, body ev = Some (before ++ ("text/plain", "") :: rest)
        /\ Forall (fun p : string * string => p.1 <> "text/plain") before) ->
  on_message W im bot_id ev st = (Normal tt, st).
Proof.
  intros H. rewrite on_message_eq.
  assert (message_text ev = None) as ->; [|done].
  unfold message_text.
  destruct H as [->|[(parts & -> & F)|(before & rest & -> & F)]]; [done| |].
  - by rewrite first_text_none.
  - by rewrite first_text_first.
Qed.

Lemma no_text_no_effect_witness :
  on_message Fallback.W' (intentManager Fallback.W') "bot-1"
    {| source := "alice";
       body := Some [("text/html", "<p>hi</p>"); ("text/plain", "");
                     ("text/plain", "hi")];
       expression := "<dm>"; threadId := "thread-1" |} Fallback.st0
  = (Normal tt, Fallback.st0).
Proof.
  apply no_text_no_effect. right. right.
  exists [("text/html", "<p>hi</p>")], [("text/plain", "hi")].
  split; [reflexivity|]. by repeat constructor.
Defined.

(** What resolving appends to the trace. *)
Lemma resolve_trace W expr st :
  trace (resolve W expr st).2 = trace st
  \/ trace (resolve W expr st).2 = trace st ++ [EResolveTags expr].
Proof.
  rewrite resolve_eq. destruct (distCache st !! expr); [by left|].
  destruct (resolveTags W (trace st) expr); by right.
Qed.

Lemma resolve_cached W expr st d st1 :
  resolve W expr st = (Normal d, st1) -> distCache st1 !! expr = Some d.
Proof.
  rewrite resolve_eq. destruct (distCache st !! expr) as [d'|] eqn:E.
  - by intros [= <- <-].
  - destruct (resolveTags W (trace st) expr); [|done].
    intros [= <- <-]. apply lookup_insert_eq.
Qed.

(** X2.  A message that is not for the bot ([needsResponse] falsy) stops
    the listener after the distribution has been resolved: the distribution
    is in the cache, the only call that may have been made is the one to
    the resolver, and neither the NLU service is asked nor anything sent. *)
Theorem ignored_message (W : World) (im : manager) (bot_id : string) (ev : Event)
    (st : State) (text : string) (d : Distribution) (st1 : State) (v : value) :
  message_text ev = Some text ->
  resolve W (expression ev) st = (Normal d, st1) ->
  needsResponse W bot_id (bot st1) (source ev) d text = Normal v ->
  truthy v = false ->
  on_message W im bot_id ev st = (Normal tt, st1)
  /\ distCache st1 !! expression ev = Some d
  /\ bot st1 = bot st
  /\ (trace st1 = trace st \/ trace st1 = trace st ++ [EResolveTags (expression ev)]).
Proof.
  intros Ht Hr Hn Hv. rewrite on_message_eq, Ht, Hr, Hn, Hv.
  split; [done|]. split; [by apply (resolve_cached W _ st)|].
  pose proof (resolve_trace W (expression ev) st) as T. rewrite Hr in T.
  split; [|exact T].
  revert Hr. rewrite resolve_eq. destruct (distCache st !! expression ev).
  - by intros [= _ <-].
  - destruct (resolveTags W (trace st) (expression ev)); [|done]. by intros [= _ <-].
Qed.

Lemma ignored_message_witness :
  on_message Fallback.W' (intentManager Fallback.W') "bot-1"
    (Sample.group "good morning") Fallback.st0
  = (Normal tt,
     set_cache "<group>" {| userids := ["bot-1"; "alice"; "bob"] |}
       (log (EResolveTags "<group>") Fallback.st0)).
Proof.
  apply (ignored_message Fallback.W' (intentManager Fallback.W') "bot-1"
           (Sample.group "good morning") Fallback.st0 "good morning"
           {| userids := ["bot-1"; "alice"; "bob"] |}
           (set_cache "<group>" {| userids := ["bot-1"; "alice"; "bob"] |}
              (log (EResolveTags "<group>") Fallback.st0))
           VUndefined eq_refl eq_refl eq_refl eq_refl).
Defined.

(** X3.  When the resolver fails on a miss the listener is rejected with
    that failure; nothing is stored in the cache, nothing else is called,
    and the next resolution of the expression calls the resolver again. *)
Theorem resolver_failure_not_cached (W : World) (im : manager) (bot_id : string)
    (ev : Event) (st : State) (text : string) (e : exn) :
  message_text ev = Some text ->
  distCache st !! expression ev = None ->
  resolveTags W (trace st) (expression ev) = Throw e ->
  let st' := (on_message W im bot_id ev st).2 in
  on_message W im bot_id ev st = (Throw e, st')
  /\ distCache st' = distCache st
  /\ bot st' = bot st
  /\ trace st' = trace st ++ [EResolveTags (expression ev)]
  /\ trace (resolve W (expression ev) st').2
     = trace st' ++ [EResolveTags (expression ev)].
Proof.
  intros Ht Hc Hf st'. subst st'.
  rewrite on_message_eq, Ht, resolve_eq, Hc, Hf. cbn [snd].
  split; [done|]. split; [done|]. split; [done|]. split; [done|].
  rewrite resolve_eq. cbn [distCache log]. rewrite Hc.
  destruct (resolveTags W (trace (log (EResolveTags (expression ev)) st))
              (expression ev)); reflexivity.
Qed.

Lemma resolver_failure_not_cached_witness :
  on_message Fallback.W' (intentManager Fallback.W') "bot-1"
    {| source := "alice"; body := Some [("text/plain", "hi")];
       expression := "<nowhere>"; threadId := "thread-9" |} Fallback.st0
  = (Throw (Failure "Error: cannot resolve"),
     log (EResolveTags "<nowhere>") Fallback.st0).
Proof.
  destruct (resolver_failure_not_cached Fallback.W' (intentManager Fallback.W') "bot-1"
              {| source := "alice"; body := Some [("text/plain", "hi")];
                 expression := "<nowhere>"; threadId := "thread-9" |}
              Fallback.st0 "hi" (Failure "Error: cannot resolve")
              eq_refl eq_refl eq_refl) as (E & _).
  exact E.
Defined.

(** ** What a handler may do *)

Lemma handler_step_return s st : handler_step st (Normal (VString s), st).
Proof. split; [left; eauto|]. split; [done|by left]. Qed.

Lemma handler_step_update W updates st :
  handler_step st (update_and_confirm W updates st).
Proof.
  rewrite update_and_confirm_eq. destruct (fetch_user _ _ _ _) as [b|err].
  - split; [left; eauto|]. split; [done|]. right. by eexists _, _.
  - split; [right; right; eauto|]. split; [done|]. right. by eexists _, _.
Qed.

Lemma call_method_step W m params st : handler_step st (call_method W m params st).
Proof.
  destruct m; simpl;
    try (split; [right; right; eauto|split; [done|by left]]).
  - unfold handleNameAgentGet, bind, get, ret.
    destruct (present (p_type params)).
    + repeat (destruct (decide _); [apply handler_step_return|]).
      split; [right; by left|]. split; [done|by left].
    + repeat (destruct (Qlt_le_dec _ _); [apply handler_step_return|]).
      apply handler_step_return.
  - unfold handleNameAgentChange.
    destruct (present (p_type params)).
    + repeat (destruct (decide _); [apply handler_step_update|]).
      destruct (decide _); [|apply handler_step_update].
      destruct (p_name params).
      * unfold bind. rewrite updateBotTag_eq.
        destruct (fetch_tag _ _ _ _) as [t|err]; simpl.
        -- split; [left; eauto|]. split; [done|]. right. by eexists _, _.
        -- split; [right; right; eauto|]. split; [done|]. right. by eexists _, _.
      * split; [right; right; eauto|]. split; [done|by left].
    + destruct (present (p_name params)); [apply handler_step_update|].
      apply handler_step_return.
  - unfold handleNameAgentDelete.
    destruct (present (p_type params)); [|apply handler_step_return].
    repeat (destruct (decide _);
            [first [apply handler_step_return|apply handler_step_update]|]).
    apply handler_step_update.
Qed.

(** X4.  Whatever the parameters, a handler of this program returns a
    string or nothing, or throws; it leaves the distribution cache alone
    and makes at most one call, which is a directory update. *)
Theorem handler_one_update_at_most (W : World) (name : string)
    (h : Params -> M value) (params : Params) (st : State) :
  intentManager W name = Some h ->
  ((exists s, (h params st).1 = Normal (VString s))
   \/ (h params st).1 = Normal VUndefined
   \/ exists e, (h params st).1 = Throw e)
  /\ distCache (h params st).2 = distCache st
  /\ ((h params st).2 = st
      \/ exists url json, trace (h params st).2 = trace st ++ [EFetch url json]).
Proof.
  unfold intentManager. destruct (findHandler name) as [m|]; [|done].
  intros [= <-]. apply call_method_step.
Qed.

Lemma handler_one_update_at_most_witness :
  trace ((call_method Changing.W m_handleNameAgentChange)
           {| p_type := Some "last name"; p_name := Some "Byron" |} Changing.st0).2
  = [EFetch "/v1/user/bot-1/" {[ "last_name" := VString "Byron" ]}].
Proof.
  destruct (handler_one_update_at_most Changing.W "name.agent.change"
              (call_method Changing.W m_handleNameAgentChange)
              {| p_type := Some "last name"; p_name := Some "Byron" |}
              Changing.st0 eq_refl) as (_ & _ & [E|(url & json & E)]).
  - reflexivity.
  - reflexivity.
Defined.

(** ** Where a reply goes *)

Lemma merged_keeps base o k :
  ((exists s, o = Normal (VString s)) \/ o = Normal VUndefined
   \/ exists e, o = Throw e) ->
  k <> "text" -> k <> "html" -> merged base o !! k = base !! k.
Proof.
  intros [[s ->]|[->|[e ->]]] T H; simpl.
  - by rewrite lookup_insert_ne.
  - done.
  - by rewrite !lookup_insert_ne.
Qed.

Lemma finished_keeps action m k : k <> "text" -> finished action m !! k = m !! k.
Proof.
  intros T. unfold finished. destruct (truthy (field m "text")); [done|].
  by rewrite lookup_insert_ne.
Qed.

Lemma base_msg_lookups d thread aiResp :
  base_msg d thread aiResp !! "distribution" = Some (distribution_value d)
  /\ base_msg d thread aiResp !! "threadId" = Some (VString thread).
Proof. split; reflexivity. Qed.

(** What one invocation of the listener sends. *)
Lemma listener_sent W bot_id ev st :
  sent (trace (listener W bot_id ev st).2) = sent (trace st)
  \/ exists m d,
      sent (trace (listener W bot_id ev st).2) = sent (trace st) ++ [m]
      /\ distCache (listener W bot_id ev st).2 !! expression ev = Some d
      /\ m !! "distribution" = Some (distribution_value d)
      /\ m !! "threadId" = Some (VString (threadId ev))
      /\ truthy (field m "text") = true.
Proof.
  unfold listener. rewrite on_message_eq.
  destruct (message_text ev) as [text|]; [|by left].
  pose proof (resolve_sent W (expression ev) st) as S1.
  destruct (resolve W (expression ev) st) as [[d|e] st1] eqn:Hr; [|by left].
  cbn [snd] in S1. pose proof (resolve_cached W _ _ _ _ Hr) as C1.
  destruct (needsResponse W bot_id (bot st1) (source ev) d text) as [v|e]; [|by left].
  destruct (truthy v); [|by left]. cbv zeta.
  destruct (textRequest W (trace st1) text (threadId ev)) as [aiResp|e].
  2:{ left. cbn [snd log trace]. by rewrite sent_app, app_nil_r. }
  rewrite compose_eq. unfold intentManager.
  destruct (base_msg_lookups d (threadId ev) aiResp) as [Bd Bt].
  destruct (findHandler (action aiResp)) as [m|]; cbn [fmap option_fmap option_map].
  - pose proof (call_method_step W m (parameters aiResp)
                  (log (ETextRequest text (threadId ev)) st1)) as (R & C & _).
    pose proof (only_fetches_sent _ _
                  (call_method_only_fetches W m (parameters aiResp)
                     (log (ETextRequest text (threadId ev)) st1))) as S3.
    right. eexists _, d. cbn [snd]. rewrite sent_log_send, S3.
    split; [cbn [log trace]; by rewrite sent_app, app_nil_r, S1|].
    split; [cbn [log distCache]; by rewrite C|].
    split; [by rewrite finished_keeps, merged_keeps|].
    split; [by rewrite finished_keeps, merged_keeps|].
    apply finished_truthy.
  - right. eexists _, d. cbn [snd]. rewrite sent_log_send.
    split; [cbn [log trace]; by rewrite sent_app, app_nil_r, S1|].
    split; [done|].
    split; [by rewrite finished_keeps|].
    split; [by rewrite finished_keeps|].
    apply finished_truthy.
Qed.

(** X5.  One invocation of the listener sends nothing or one message.  The
    message it sends goes to the thread of the incoming message and to the
    distribution the cache holds for its expression, and its text is
    truthy: no handler of the program can redirect a reply. *)
Theorem reply_goes_back (W : World) (bot_id : string) (ev : Event) (st : State) :
  sent (trace (listener W bot_id ev st).2) = sent (trace st)
  \/ exists m d,
      sent (trace (listener W bot_id ev st).2) = sent (trace st) ++ [m]
      /\ distCache (listener W bot_id ev st).2 !! expression ev = Some d
      /\ m !! "distribution" = Some (distribution_value d)
      /\ m !! "threadId" = Some (VString (threadId ev))
      /\ truthy (field m "text") = true.
Proof. apply listener_sent. Qed.

(** X6.  Over any sequence of events the listener sends at most one
    message per event. *)
Theorem run_sends_at_most_one_per_event (W : World) (bot_id : string)
    (evs : list Event) (st : State) :
  length (sent (trace (run W (intentManager W) bot_id evs st)))
  <= length (sent (trace st)) + length evs.
Proof.
  revert st. induction evs as [|ev evs IH]; intros st; simpl; [lia|].
  specialize (IH (on_message W (intentManager W) bot_id ev st).2).
  destruct (listener_sent W bot_id ev st) as [E|(m & d & E & _)];
    unfold listener in E; rewrite E in IH; [lia|].
  rewrite length_app in IH. simpl in IH. lia.
Qed.

(** ** How the result of a handler is merged *)

(** X7.  For any intent manager: a non-empty string returned by the
    handler replaces the text and nothing else; when the handler returns
    nothing, the message is sent with the fulfillment speech as its text,
    provided the speech is not empty.  In both cases the message has no
    [html] and is sent right after the handler. *)
Theorem handler_result_text (W : World) (im : manager) (bot_id : string)
    (ev : Event) (st : State) (text : string) (d : Distribution) (st1 : State)
    (v : value) (aiResp : AiResult) (h : Params -> M value) (st3 : State) :
  message_text ev = Some text ->
  resolve W (expression ev) st = (Normal d, st1) ->
  needsResponse W bot_id (bot st1) (source ev) d text = Normal v ->
  truthy v = true ->
  textRequest W (trace st1) text (threadId ev) = Normal aiResp ->
  im (action aiResp) = Some h ->
  (forall s, s <> EmptyString ->
     h (parameters aiResp) (asked ev text st1) = (Normal (VString s), st3) ->
     let m := <[ "text" := VString s ]> (base_msg d (threadId ev) aiResp) in
     on_message W im bot_id ev st = (send W (trace st3) m, log (ESend m) st3))
  /\ (speech aiResp <> EmptyString ->
      h (parameters aiResp) (asked ev text st1) = (Normal VUndefined, st3) ->
      let m := base_msg d (threadId ev) aiResp in
      on_message W im bot_id ev st = (send W (trace st3) m, log (ESend m) st3)
      /\ m !! "text" = Some (VString (speech aiResp))).
Proof.
  intros Ht Hr Hn Hw Hq Hf.
  rewrite (qualifying_eq W im bot_id ev st text d st1 v Ht Hr Hn Hw), Hq.
  rewrite compose_eq, Hf. split.
  - intros s Hs Hh m. rewrite Hh. cbn [fst snd merged].
    rewrite finished_text_truthy; [done|].
    rewrite field_insert_eq. simpl. by rewrite bool_decide_eq_false_2.
  - intros Hs Hh m. rewrite Hh. cbn [fst snd merged Object_assign].
    rewrite finished_text_truthy; [done|].
    rewrite base_msg_text. simpl. by rewrite bool_decide_eq_false_2.
Qed.

Lemma handler_result_text_witness :
  listener GetTag.W "bot-1" (Sample.dm "hi") Fallback.st0
  = (Normal tt,
     log (ESend (<[ "text" := VString "@ada.bot:forsta" ]>
                   (base_msg Fallback.pair "thread-1" GetTag.reply)))
       Failing.asked).
Proof.
  destruct (handler_result_text GetTag.W (intentManager GetTag.W) "bot-1"
              (Sample.dm "hi") Fallback.st0 "hi" Fallback.pair Fallback.st1
              (VBool true) GetTag.reply
              (call_method GetTag.W m_handleNameAgentGet) Failing.asked
              eq_refl eq_refl eq_refl eq_refl eq_refl eq_refl) as [S _].
  exact (S "@ada.bot:forsta" ltac:(discriminate) eq_refl).
Defined.

Lemma foldl_insert_union (fields : list (string * value)) :
  forall base : gmap string value,
    foldl (fun m (kv : string * value) => <[kv.1 := kv.2]> m) base fields
    = list_to_map (reverse fields) ∪ base.
Proof.
  induction fields as [|[k x] fields IH]; intros base; simpl.
  - by rewrite (left_id_L ∅ (∪)).
  - rewrite IH, reverse_cons, list_to_map_app. simpl.
    rewrite insert_empty, <- (assoc_L (∪)). by rewrite <- insert_union_singleton_l.
Qed.

Lemma assigned_absent (fields : list (string * value)) (base : gmap string value) k :
  k ∉ fields.*1 ->
  foldl (fun m (kv : string * value) => <[kv.1 := kv.2]> m) base fields !! k
  = base !! k.
Proof.
  revert base. induction fields as [|[k' x] fields IH]; intros base N; simpl; [done|].
  rewrite fmap_cons in N. apply not_elem_of_cons in N as [N1 N2].
  rewrite IH by done. by rewrite lookup_insert_ne.
Qed.

Lemma assigned_last (pre post : list (string * value)) (base : gmap string value) k x :
  k ∉ post.*1 ->
  foldl (fun m (kv : string * value) => <[kv.1 := kv.2]> m) base (pre ++ (k, x) :: post) !! k
  = Some x.
Proof.
  intros N. rewrite foldl_app. simpl. rewrite assigned_absent by done.
  apply lookup_insert_eq.
Qed.

(** X8.  For any intent manager: when the handler returns an object, its
    properties are copied onto the message, the last value of a key
    winning; a key the object does not have keeps the value the message
    had, so an object may replace the distribution and the thread of the
    reply, and a falsy text it sets is replaced by the fallback sentence. *)
Theorem handler_object_merged (W : World) (im : manager) (bot_id : string)
    (ev : Event) (st : State) (text : string) (d : Distribution) (st1 : State)
    (v : value) (aiResp : AiResult) (h : Params -> M value) (st3 : State)
    (fields : list (string * value)) :
  message_text ev = Some text ->
  resolve W (expression ev) st = (Normal d, st1) ->
  needsResponse W bot_id (bot st1) (source ev) d text = Normal v ->
  truthy v = true ->
  textRequest W (trace st1) text (threadId ev) = Normal aiResp ->
  im (action aiResp) = Some h ->
  h (parameters aiResp) (asked ev text st1) = (Normal (VObject fields), st3) ->
  exists m,
    on_message W im bot_id ev st = (send W (trace st3) m, log (ESend m) st3)
    /\ (forall k, k ∉ fields.*1 -> k <> "text" ->
          m !! k = base_msg d (threadId ev) aiResp !! k)
    /\ (forall pre post k x, fields = pre ++ (k, x) :: post -> k ∉ post.*1 ->
          k <> "text" -> m !! k = Some x)
    /\ (forall pre post x, fields = pre ++ ("text", x) :: post -> "text" ∉ post.*1 ->
          m !! "text" = Some (if truthy x then x
                              else VString (nothing_to_do (action aiResp)))).
Proof.
  intros Ht Hr Hn Hw Hq Hf Hh.
  rewrite (qualifying_eq W im bot_id ev st text d st1 v Ht Hr Hn Hw), Hq.
  rewrite compose_eq, Hf, Hh. cbn [fst snd merged Object_assign].
  eexists. split; [reflexivity|]. split; [|split].
  - intros k N T. by rewrite finished_keeps, assigned_absent.
  - intros pre post k x -> N T. by rewrite finished_keeps, assigned_last.
  - intros pre post x -> N. unfold finished, field.
    rewrite assigned_last by done. simpl.
    destruct (truthy x); [by apply assigned_last|apply lookup_insert_eq].
Qed.

Lemma handler_object_merged_witness :
  exists m,
    on_message Quiet.W Elsewhere.im "bot-1" (Sample.dm "hi") Fallback.st0
      = (Normal tt, log (ESend m) Failing.asked)
    /\ m !! "threadId" = Some (VString "thread-7")
    /\ m !! "distribution" = Some (distribution_value Fallback.pair)
    /\ m !! "text" = Some (VString (nothing_to_do "be.quiet")).
Proof.
  destruct (handler_object_merged Quiet.W Elsewhere.im "bot-1" (Sample.dm "hi")
              Fallback.st0 "hi" Fallback.pair Fallback.st1 (VBool true)
              {| action := "be.quiet";
                 parameters := {| p_type := None; p_name := None |};
                 speech := "Sure." |}
              (fun _ => ret (VObject Elsewhere.elsewhere)) Failing.asked
              Elsewhere.elsewhere
              eq_refl eq_refl eq_refl eq_refl eq_refl eq_refl eq_refl)
    as (m & E & A & L & T).
  exists m. split; [exact E|]. split; [|split].
  - apply (L [] [("text", VString EmptyString)] "threadId" (VString "thread-7"));
      [reflexivity|apply (bool_decide_unpack _); vm_compute; exact I|done].
  - rewrite (A "distribution");
      [reflexivity|apply (bool_decide_unpack _); vm_compute; exact I|done].
  - apply (T [("threadId", VString "thread-7")] [] (VString EmptyString));
      [reflexivity|apply (bool_decide_unpack _); vm_compute; exact I].
Defined.

(** ** Names that are not regular expressions *)

Lemma needsResponse_direct W bot_id b sender dist text :
  others bot_id sender dist = ∅ ->
  needsResponse W bot_id b sender dist text = Normal (VBool true).
Proof.
  intros E. apply others_empty_size in E. unfold needsResponse.
  change (list_to_set (userids dist) ∖ {[bot_id]} ∖ {[sender]})
    with (others bot_id sender dist).
  by destruct (decide _).
Qed.

Lemma needsResponse_first_name_throws W bot_id b sender dist text e :
  others bot_id sender dist <> ∅ ->
  regexp_match_i W (first_name b) text = Throw e ->
  needsResponse W bot_id b sender dist text = Throw e.
Proof.
  intros NE T. unfold needsResponse.
  change (list_to_set (userids dist) ∖ {[bot_id]} ∖ {[sender]})
    with (others bot_id sender dist).
  destruct (decide _) as [Z|_]; [by apply others_empty_size in Z|]. by rewrite T.
Qed.

(** X9.  The names are compiled to regular expressions only when the
    conversation has a member besides the bot and the sender.  If the
    first name does not compile there, the listener is rejected with the
    syntax error for every such message, whatever its text, before the NLU
    service is asked; in a direct conversation the names are not looked
    at and the message goes on to the NLU service. *)
Theorem broken_name_blocks_groups (W : World) (bot_id : string) (ev : Event)
    (st : State) (text : string) (d : Distribution) (st1 : State) :
  message_text ev = Some text ->
  resolve W (expression ev) st = (Normal d, st1) ->
  (forall e, others bot_id (source ev) d <> ∅ ->
     regexp_match_i W (first_name (bot st1)) text = Throw e ->
     listener W bot_id ev st = (Throw e, st1)
     /\ sent (trace st1) = sent (trace st))
  /\ (others bot_id (source ev) d = ∅ ->
      exists rest,
        trace (listener W bot_id ev st).2
        = trace st1 ++ ETextRequest text (threadId ev) :: rest).
Proof.
  intros Ht Hr. unfold listener. rewrite on_message_eq, Ht, Hr. split.
  - intros e NE T. rewrite (needsResponse_first_name_throws W _ _ _ _ _ e NE T).
    split; [done|]. pose proof (resolve_sent W (expression ev) st) as S.
    by rewrite Hr in S.
  - intros E. rewrite (needsResponse_direct W _ _ _ _ _ E). cbn [truthy]. cbv zeta.
    destruct (textRequest W (trace st1) text (threadId ev)) as [aiResp|e].
    2:{ by exists []. }
    rewrite compose_eq. unfold intentManager.
    destruct (findHandler (action aiResp)) as [m|];
      cbn [fmap option_fmap option_map].
    + destruct (call_method_only_fetches W m (parameters aiResp)
                  (log (ETextRequest text (threadId ev)) st1))
        as (_ & t & T & _).
      eexists (t ++ [_]). cbn [snd log trace]. rewrite T. cbn [log trace].
      by rewrite <- !app_assoc.
    + eexists [_]. cbn [snd log trace]. by rewrite <- app_assoc.
Qed.

Lemma broken_name_blocks_groups_witness :
  listener Fallback.W' "bot-1" (Sample.group "hello Ada") Broken.st0
    = (Throw (Failure "SyntaxError: pattern outside the fragment"), Broken.st1)
  /\ exists rest,
      trace (listener Fallback.W' "bot-1" (Sample.dm "hello") Broken.st0).2
      = trace Broken.pair1 ++ ETextRequest "hello" "thread-1" :: rest.
Proof.
  split.
  - destruct (broken_name_blocks_groups Fallback.W' "bot-1"
                (Sample.group "hello Ada") Broken.st0 "hello Ada" Broken.room
                Broken.st1 eq_refl eq_refl) as [G _].
    apply (G (Failure "SyntaxError: pattern outside the fragment")); [|reflexivity].
    intros E. apply others_empty_size in E. vm_compute in E. discriminate.
  - destruct (broken_name_blocks_groups Fallback.W' "bot-1"
                (Sample.dm "hello") Broken.st0 "hello" Fallback.pair
                Broken.pair1 eq_refl eq_refl) as [_ D].
    apply D. apply others_empty_size. vm_compute. reflexivity.
Defined.

(** ** The get handler *)

Lemma or_else_not_empty s fallback : fallback <> EmptyString -> or_else s fallback <> EmptyString.
Proof. intros F. unfold or_else. by destruct (decide (s = EmptyString)). Qed.

(** X10.  The get handler only reads: it makes no call, never throws and
    leaves the state as it was.  Its result is a non-empty string, except
    for a type that is none of the four known ones, for which it is
    [undefined]. *)
Theorem get_handler_read_only (W : World) (params : Params) (st : State) :
  exists v,
    handleNameAgentGet W params st = (Normal v, st)
    /\ (v = VUndefined \/ exists s, v = VString s /\ s <> EmptyString)
    /\ (v = VUndefined <->
        exists ty, present (p_type params) = Some ty
                   /\ ty <> "first name" /\ ty <> "last name"
                   /\ ty <> "middle name" /\ ty <> "tag").
Proof.
  unfold handleNameAgentGet, bind, get, ret.
  destruct (present (p_type params)) as [ty|].
  - destruct (decide (ty = "first name")) as [->|N1].
    { eexists. split; [reflexivity|]. split.
      - right. eexists. split; [reflexivity|]. by apply or_else_not_empty.
      - split; [done|]. by intros (ty & [= <-] & N & _). }
    destruct (decide (ty = "last name")) as [->|N2].
    { eexists. split; [reflexivity|]. split.
      - right. eexists. split; [reflexivity|]. by apply or_else_not_empty.
      - split; [done|]. by intros (ty & [= <-] & _ & N & _). }
    destruct (decide (ty = "middle name")) as [->|N3].
    { eexists. split; [reflexivity|]. split.
      - right. eexists. split; [reflexivity|]. by apply or_else_not_empty.
      - split; [done|]. by intros (ty & [= <-] & _ & _ & N & _). }
    destruct (decide (ty = "tag")) as [->|N4].
    { eexists. split; [reflexivity|]. split.
      - right. eexists. split; [reflexivity|]. done.
      - split; [done|]. by intros (ty & [= <-] & _ & _ & _ & N). }
    eexists. split; [reflexivity|]. split; [by left|].
    split; [|done]. intros _. by exists ty.
  - destruct (Qlt_le_dec _ _); [|destruct (Qlt_le_dec _ _)];
      (eexists; split; [reflexivity|]; split;
       [right; eexists; split; [reflexivity|done]
       |split; [done|by intros (ty & ? & _)]]).
Qed.

(** X11.  Asked through the listener for a name of a type it does not
    know, the bot makes no call besides the NLU request and answers with
    the fulfillment speech, or with the fallback sentence when the speech
    is empty. *)
Theorem get_unknown_type_reply (W : World) (bot_id : string) (ev : Event)
    (st : State) (text : string) (d : Distribution) (st1 : State) (v : value)
    (aiResp : AiResult) (ty : string) :
  message_text ev = Some text ->
  resolve W (expression ev) st = (Normal d, st1) ->
  needsResponse W bot_id (bot st1) (source ev) d text = Normal v ->
  truthy v = true ->
  textRequest W (trace st1) text (threadId ev) = Normal aiResp ->
  action aiResp = "name.agent.get" ->
  present (p_type (parameters aiResp)) = Some ty ->
  ty <> "first name" -> ty <> "last name" -> ty <> "middle name" -> ty <> "tag" ->
  exists m,
    listener W bot_id ev st
      = (send W (trace (asked ev text st1)) m, log (ESend m) (asked ev text st1))
    /\ m !! "text" =
       Some (VString (if decide (speech aiResp = EmptyString)
                      then nothing_to_do "name.agent.get" else speech aiResp)).
Proof.
  intros Ht Hr Hn Hw Hq Ha Hp N1 N2 N3 N4. unfold listener.
  rewrite (qualifying_eq W (intentManager W) bot_id ev st text d st1 v Ht Hr Hn Hw), Hq.
  rewrite compose_eq, Ha.
  change (intentManager W "name.agent.get") with (Some (handleNameAgentGet W)).
  cbv beta iota.
  assert (handleNameAgentGet W (parameters aiResp) (asked ev text st1)
          = (Normal VUndefined, asked ev text st1)) as ->.
  { unfold handleNameAgentGet, bind, get, ret. rewrite Hp.
    by repeat (destruct (decide _); [done|]). }
  cbn [fst snd merged Object_assign]. eexists. split; [reflexivity|].
  destruct (decide (speech aiResp = EmptyString)) as [E|N].
  - apply finished_text_falsy. rewrite base_msg_text. simpl.
    by rewrite bool_decide_eq_true_2.
  - rewrite finished_text_truthy; [done|]. rewrite base_msg_text. simpl.
    by rewrite bool_decide_eq_false_2.
Qed.

Lemma get_unknown_type_reply_witness :
  exists m,
    listener Quiet.W' "bot-1" (Sample.dm "hi") Fallback.st0
      = (Normal tt, log (ESend m) Failing.asked)
    /\ m !! "text" = Some (VString (nothing_to_do "name.agent.get")).
Proof.
  exact (get_unknown_type_reply Quiet.W' "bot-1" (Sample.dm "hi") Fallback.st0
           "hi" Fallback.pair Fallback.st1 (VBool true)
           {| action := "name.agent.get";
              parameters := {| p_type := Some "nickname"; p_name := None |};
              speech := "" |} "nickname"
           eq_refl eq_refl eq_refl eq_refl eq_refl eq_refl eq_refl
           ltac:(discriminate) ltac:(discriminate) ltac:(discriminate)
           ltac:(discriminate)).
Defined.

(** ** The change handler, case by case *)

(** X12.  With the type [first name], [last name] or [middle name] the
    change handler issues one update that carries that field alone, set to
    the name (to [undefined] when no name came with it).  When the
    directory answers, the reply is made of the names it answered and the
    bot in memory is replaced by its answer; when the update fails, the
    handler throws that failure and the bot in memory is as before. *)
Theorem change_single_field (W : World) (params : Params) (st : State)
    (ty key : string) :
  present (p_type params) = Some ty ->
  (ty = "first name" /\ key = "first_name")
  \/ (ty = "last name" /\ key = "last_name")
  \/ (ty = "middle name" /\ key = "middle_name") ->
  let r := handleNameAgentChange W params st in
  let updates : gmap string value := {[ key := opt_value (p_name params) ]} in
  fetches (trace r.2) = fetches (trace st) ++ [(user_url st, updates)]
  /\ distCache r.2 = distCache st
  /\ (forall b, fetch_user W (trace st) (user_url st) updates = Normal b ->
        r.1 = Normal (VString (full_name_reply b)) /\ bot r.2 = b)
  /\ (forall e, fetch_user W (trace st) (user_url st) updates = Throw e ->
        r.1 = Throw e /\ bot r.2 = bot st).
Proof.
  intros T K r updates. subst r updates. unfold handleNameAgentChange. rewrite T.
  assert (forall u,
    fetches (trace (update_and_confirm W u st).2) = fetches (trace st) ++ [(user_url st, u)]
    /\ distCache (update_and_confirm W u st).2 = distCache st
    /\ (forall b, fetch_user W (trace st) (user_url st) u = Normal b ->
          (update_and_confirm W u st).1 = Normal (VString (full_name_reply b))
          /\ bot (update_and_confirm W u st).2 = b)
    /\ (forall e, fetch_user W (trace st) (user_url st) u = Throw e ->
          (update_and_confirm W u st).1 = Throw e
          /\ bot (update_and_confirm W u st).2 = bot st)) as U.
  { intros u. split; [apply update_and_confirm_fetches|].
    rewrite update_and_confirm_eq.
    destruct (fetch_user W (trace st) (user_url st) u) as [b|e]; simpl.
    - split; [done|]. split; [by intros ? [= <-]|done].
    - split; [done|]. split; [done|by intros ? [= <-]]. }
  destruct K as [[-> ->]|[[-> ->]|[-> ->]]]; simpl; apply U.
Qed.

Lemma change_single_field_witness :
  fetches (trace (handleNameAgentChange Changing.W
                    {| p_type := Some "middle name"; p_name := Some "Augusta" |}
                    Changing.st0).2)
    = [("/v1/user/bot-1/", {[ "middle_name" := VString "Augusta" ]})]
  /\ (handleNameAgentChange Changing.W
        {| p_type := Some "middle name"; p_name := Some "Augusta" |} Changing.st0).1
    = Normal (VString "Okay, I'm now Ada Augusta Lovelace").
Proof.
  destruct (change_single_field Changing.W
              {| p_type := Some "middle name"; p_name := Some "Augusta" |}
              Changing.st0 "middle name" "middle_name" eq_refl
              ltac:(right; right; done)) as (F & _ & S & _).
  split; [exact F|].
  exact (proj1 (S (Sample.echo_user {[ "middle_name" := VString "Augusta" ]}) eq_refl)).
Defined.

(** X13.  The change handler leaves the directory alone in two cases only:
    with neither a type nor a name (absent or empty) it asks back, and with
    the type [tag] and no name it throws; in both the state is as it was.
    In every other case it issues exactly one update. *)
Theorem change_calls_directory (W : World) (params : Params) (st : State) :
  let r := handleNameAgentChange W params st in
  (present (p_type params) = None -> present (p_name params) = None ->
   r = (Normal (VString "To what?"), st))
  /\ (present (p_type params) = Some "tag" -> p_name params = None ->
      r = (Throw (TypeError (cannot_read_property W "replace")), st))
  /\ (~ (present (p_type params) = None /\ present (p_name params) = None) ->
      ~ (present (p_type params) = Some "tag" /\ p_name params = None) ->
      exists url json,
        fetches (trace r.2) = fetches (trace st) ++ [(url, json)]).
Proof.
  cbv zeta. unfold handleNameAgentChange. split; [|split].
  - by intros -> ->.
  - by intros -> ->.
  - intros N1 N2. destruct (present (p_type params)) as [ty|].
    + repeat (destruct (decide _);
              [eexists _, _; apply update_and_confirm_fetches|]).
      destruct (decide (ty = "tag")) as [->|_];
        [|eexists _, _; apply update_and_confirm_fetches].
      destruct (p_name params) as [name|]; [|tauto].
      unfold bind. rewrite updateBotTag_eq.
      destruct (fetch_tag _ _ _ _); simpl; eexists _, _; by rewrite fetches_app.
    + destruct (present (p_name params)); [|tauto].
      eexists _, _. apply update_and_confirm_fetches.
Qed.

Lemma change_calls_directory_witness :
  handleNameAgentChange Changing.W {| p_type := Some ""; p_name := Some "" |}
    Changing.st0 = (Normal (VString "To what?"), Changing.st0)
  /\ handleNameAgentChange Changing.W {| p_type := Some "tag"; p_name := None |}
    Changing.st0
    = (Throw (TypeError "Cannot read property 'replace' of undefined"), Changing.st0)
  /\ exists url json,
      fetches (trace (handleNameAgentChange Changing.W
                        {| p_type := Some "nickname"; p_name := None |}
                        Changing.st0).2) = [(url, json)].
Proof.
  split; [|split].
  - by apply (change_calls_directory Changing.W
                {| p_type := Some ""; p_name := Some "" |} Changing.st0).
  - by apply (change_calls_directory Changing.W
                {| p_type := Some "tag"; p_name := None |} Changing.st0).
  - destruct (change_calls_directory Changing.W
                {| p_type := Some "nickname"; p_name := None |} Changing.st0)
      as (_ & _ & C).
    apply C; intros [A B]; discriminate.
Defined.

(** X14.  Asked to change the tag without a name, the handler throws the
    engine's type error before any call; the listener catches it and sends
    the apology with that error, and the directory is not called. *)
Theorem change_tag_without_name (W : World) (bot_id : string) (ev : Event)
    (st : State) (text : string) (d : Distribution) (st1 : State) (v : value)
    (aiResp : AiResult) :
  message_text ev = Some text ->
  resolve W (expression ev) st = (Normal d, st1) ->
  needsResponse W bot_id (bot st1) (source ev) d text = Normal v ->
  truthy v = true ->
  textRequest W (trace st1) text (threadId ev) = Normal aiResp ->
  action aiResp = "name.agent.change" ->
  p_type (parameters aiResp) = Some "tag" ->
  p_name (parameters aiResp) = None ->
  let e := TypeError (cannot_read_property W "replace") in
  exists m,
    listener W bot_id ev st
      = (send W (trace (asked ev text st1)) m, log (ESend m) (asked ev text st1))
    /\ m !! "text" = Some (VString (apology_text e))
    /\ m !! "html" = Some (VString (apology_html e))
    /\ fetches (trace (listener W bot_id ev st).2) = fetches (trace st).
Proof.
  intros Ht Hr Hn Hw Hq Ha Hp Hm e. unfold listener.
  rewrite (qualifying_eq W (intentManager W) bot_id ev st text d st1 v Ht Hr Hn Hw), Hq.
  rewrite compose_eq, Ha.
  change (intentManager W "name.agent.change") with (Some (handleNameAgentChange W)).
  cbv beta iota.
  assert (handleNameAgentChange W (parameters aiResp) (asked ev text st1)
          = (Throw e, asked ev text st1)) as ->.
  { unfold handleNameAgentChange. by rewrite Hp, Hm. }
  cbn [fst snd merged].
  rewrite finished_text_truthy.
  2:{ unfold field. rewrite lookup_insert_ne by done. by rewrite lookup_insert_eq. }
  eexists. split; [reflexivity|].
  split; [by rewrite lookup_insert_ne, lookup_insert_eq|].
  split; [by rewrite lookup_insert_eq|].
  cbn [snd log trace asked]. rewrite !fetches_app. simpl. rewrite !app_nil_r.
  revert Hr. rewrite resolve_eq. destruct (distCache st !! expression ev).
  - by intros [= _ <-].
  - destruct (resolveTags W (trace st) (expression ev)); [|done].
    intros [= _ <-]. simpl. by rewrite fetches_app, app_nil_r.
Qed.

Lemma change_tag_without_name_witness :
  exists m,
    listener Tagless.W "bot-1" (Sample.dm "hi") Fallback.st0
      = (Normal tt, log (ESend m) Failing.asked)
    /\ m !! "text"
       = Some (VString (apology_text
                          (TypeError "Cannot read property 'replace' of undefined"))).
Proof.
  destruct (change_tag_without_name Tagless.W "bot-1" (Sample.dm "hi") Fallback.st0
              "hi" Fallback.pair Fallback.st1 (VBool true) Tagless.reply
              eq_refl eq_refl eq_refl eq_refl eq_refl eq_refl eq_refl eq_refl)
    as (m & E & T & _).
  exists m. split; [exact E|exact T].
Defined.

(** X15.  Two edges of the free-form change.  A name that starts with
    white space has an empty first piece, so the update sets [first_name]
    to the empty string; and of a name of more than three words only the
    first three are used, the rest is dropped. *)
Theorem change_free_form_edges (W : World) (params : Params) (name : string)
    (st : State) :
  present (p_type params) = None ->
  present (p_name params) = Some name ->
  let r := handleNameAgentChange W params st in
  (forall c rest, name = String c rest -> Js.is_whitespace c = true ->
     exists updates,
       fetches (trace r.2) = fetches (trace st) ++ [(user_url st, updates)]
       /\ updates !! "first_name" = Some (VString EmptyString))
  /\ (forall a b c d more,
        Js.split_ws_from false EmptyString name = a :: b :: c :: d :: more ->
        fetches (trace r.2)
        = fetches (trace st)
          ++ [(user_url st,
               <[ "last_name" := VString c ]>
                 (<[ "middle_name" := VString b ]> {[ "first_name" := VString a ]}))]).
Proof.
  intros T N r. subst r. unfold handleNameAgentChange. rewrite T, N. split.
  - intros c rest -> Wc. unfold Js.split_ws. simpl. rewrite Wc.
    destruct (Js.split_ws_from true EmptyString rest) as [|x [|y l]]; simpl.
    + eexists. split; [apply update_and_confirm_fetches|]. by simplify_map_eq.
    + eexists. split; [apply update_and_confirm_fetches|]. by simplify_map_eq.
    + eexists. split; [apply update_and_confirm_fetches|]. by simplify_map_eq.
  - intros a b c d more E. unfold Js.split_ws. rewrite E. simpl.
    apply update_and_confirm_fetches.
Qed.

Lemma change_free_form_edges_witness :
  (exists updates,
     fetches (trace (handleNameAgentChange Changing.W
                       {| p_type := None; p_name := Some " Ada" |} Changing.st0).2)
     = [("/v1/user/bot-1/", updates)]
     /\ updates !! "first_name" = Some (VString EmptyString))
  /\ fetches (trace (handleNameAgentChange Changing.W
                       {| p_type := None; p_name := Some "Augusta Ada King Noel" |}
                       Changing.st0).2)
     = [("/v1/user/bot-1/",
         <[ "last_name" := VString "King" ]>
           (<[ "middle_name" := VString "Ada" ]> {[ "first_name" := VString "Augusta" ]}))].
Proof.
  split.
  - destruct (change_free_form_edges Changing.W
                {| p_type := None; p_name := Some " Ada" |} " Ada" Changing.st0
                eq_refl eq_refl) as [L _].
    exact (L " "%char "Ada" eq_refl eq_refl).
  - destruct (change_free_form_edges Changing.W
                {| p_type := None; p_name := Some "Augusta Ada King Noel" |}
                "Augusta Ada King Noel" Changing.st0 eq_refl eq_refl) as [_ M].
    exact (M "Augusta" "Ada" "King" "Noel" [] eq_refl).
Defined.

Lemma replace_ws_from_id sep s :
  no_whitespace s = true -> Js.replace_ws_from false sep s = s.
Proof.
  induction s as [|c s IH]; simpl; [done|].
  intros [C H]%andb_true_iff. apply negb_true_iff in C. by rewrite C, IH.
Qed.

Lemma lower_char_idem c : Js.lower_char (Js.lower_char c) = Js.lower_char c.
Proof.
  pose proof (for_all_chars
    (fun c => Ascii.eqb (Js.lower_char (Js.lower_char c)) (Js.lower_char c))
    ltac:(vm_compute; reflexivity) c) as A.
  by apply Ascii.eqb_eq in A.
Qed.

Lemma toLowerCase_idem s : Js.toLowerCase (Js.toLowerCase s) = Js.toLowerCase s.
Proof.
  unfold Js.toLowerCase. induction s as [|c s IH]; simpl; [done|].
  by rewrite lower_char_idem, IH.
Qed.

(** Making a slug of a slug gives the slug. *)
Lemma slug_of_slug name :
  Js.toLowerCase (Js.replace_ws_runs (Js.toLowerCase (Js.replace_ws_runs name ".")) ".")
  = Js.toLowerCase (Js.replace_ws_runs name ".").
Proof.
  unfold Js.replace_ws_runs at 1. rewrite replace_ws_from_id, toLowerCase_idem; [done|].
  apply toLowerCase_no_whitespace. by apply replace_ws_from_no_whitespace.
Qed.

(** X16.  The slug the change handler makes of a name is stable: asked to
    change the tag to the slug it would make of a name, the handler does
    exactly what it does for the name itself. *)
Theorem change_tag_slug_stable (W : World) (name : string) (st : State) :
  handleNameAgentChange W
    {| p_type := Some "tag";
       p_name := Some (Js.toLowerCase (Js.replace_ws_runs name ".")) |} st
  = handleNameAgentChange W {| p_type := Some "tag"; p_name := Some name |} st.
Proof. unfold handleNameAgentChange. simpl. by rewrite slug_of_slug. Qed.

(** X17.  Changing the tag replaces the tag alone: whether the directory
    answers or fails, the id, the three names and the organisation of the
    bot in memory, and the cache, are as before; when the handler throws,
    the tag is as before too. *)
Theorem change_tag_keeps_identity (W : World) (params : Params) (st : State) :
  present (p_type params) = Some "tag" ->
  let r := handleNameAgentChange W params st in
  id (bot r.2) = id (bot st)
  /\ first_name (bot r.2) = first_name (bot st)
  /\ middle_name (bot r.2) = middle_name (bot st)
  /\ last_name (bot r.2) = last_name (bot st)
  /\ org (bot r.2) = org (bot st)
  /\ distCache r.2 = distCache st
  /\ (forall e, r.1 = Throw e -> bot r.2 = bot st).
Proof.
  intros T r. subst r. unfold handleNameAgentChange. rewrite T. simpl.
  destruct (p_name params) as [name|]; [|done].
  unfold bind. rewrite updateBotTag_eq.
  by destruct (fetch_tag _ _ _ _).
Qed.

Lemma change_tag_keeps_identity_witness :
  first_name (bot (handleNameAgentChange Changing.W
                     {| p_type := Some "tag"; p_name := Some "New Name" |}
                     Changing.st0).2) = "Ada"
  /\ id (bot (handleNameAgentChange Changing.W
                {| p_type := Some "tag"; p_name := Some "New Name" |}
                Changing.st0).2) = "bot-1".
Proof.
  destruct (change_tag_keeps_identity Changing.W
              {| p_type := Some "tag"; p_name := Some "New Name" |} Changing.st0
              eq_refl) as (I & F & _).
  split; [exact F|exact I].
Defined.

(** X18.  For a type that is none of the four known ones the change and
    the delete handler do the same: they send the directory an update
    without fields and, when it answers, confirm with the names it
    answered, as if something had been changed. *)
Theorem unknown_type_still_confirms (W : World) (params : Params) (st : State)
    (ty : string) (b : Bot) :
  present (p_type params) = Some ty ->
  ty <> "first name" -> ty <> "last name" -> ty <> "middle name" -> ty <> "tag" ->
  fetch_user W (trace st) (user_url st) ∅ = Normal b ->
  handleNameAgentChange W params st
    = (Normal (VString (full_name_reply b)),
       set_bot b (log (EFetch (user_url st) ∅) st))
  /\ handleNameAgentDelete W params st = handleNameAgentChange W params st.
Proof.
  intros T N1 N2 N3 N4 F. unfold handleNameAgentChange, handleNameAgentDelete.
  rewrite T. repeat (destruct (decide _); [done|]).
  by rewrite update_and_confirm_eq, F.
Qed.

Lemma unknown_type_still_confirms_witness :
  handleNameAgentDelete Changing.W {| p_type := Some "nickname"; p_name := None |}
    Changing.st0
  = (Normal (VString "Okay, I'm now Ada  Lovelace"),
     set_bot Sample.ada (log (EFetch "/v1/user/bot-1/" ∅) Changing.st0)).
Proof.
  destruct (unknown_type_still_confirms Changing.W
              {| p_type := Some "nickname"; p_name := None |} Changing.st0
              "nickname" Sample.ada eq_refl
              ltac:(discriminate) ltac:(discriminate) ltac:(discriminate)
              ltac:(discriminate) eq_refl) as [C D].
  by rewrite D, C.
Defined.

(** ** The registry, for any class *)

(** X19.  The key of a method named [handle...] is the dotted form of what
    follows [handle], less its first character: the dot when a capital
    follows [handle], but the first letter itself when a small letter
    does. *)
Theorem intent_name_drops_one (rest : string) :
  intent_name ("handle" +:+ rest) = Js.drop_chars 1 (Js.replace_capitals rest)
  /\ (forall c tail, rest = String c tail -> Js.is_AZ c = false ->
        intent_name ("handle" +:+ rest) = Js.replace_capitals tail).
Proof.
  rewrite handle_prefix. unfold intent_name. simpl. split.
  - by destruct (Js.replace_capitals rest).
  - intros c tail -> C. simpl. by rewrite C.
Qed.

Lemma intent_name_drops_one_witness :
  intent_name ("handle" +:+ "rFooBar") = ".foo.bar".
Proof.
  destruct (intent_name_drops_one "rFooBar") as [_ L].
  exact (L "r"%char "FooBar" eq_refl eq_refl).
Defined.

Lemma build_handlers_snoc proto pm :
  build_handlers (proto ++ [pm]) = register (build_handlers proto) pm.
Proof. unfold build_handlers. by rewrite foldl_app. Qed.

(** X20.  For the methods of any class: a key of the registry comes from a
    method whose name starts with [handle] and maps to that method; every
    such method has its key in the registry; a method under another name
    is never registered; and of two methods with the same key the later
    one is kept. *)
Theorem build_handlers_lookup (proto : list (string * method)) :
  (forall key m, build_handlers proto !! key = Some m ->
     exists prop, (prop, m) ∈ proto /\ Js.startsWith prop "handle" = true
                  /\ intent_name prop = key)
  /\ (forall prop m, (prop, m) ∈ proto -> Js.startsWith prop "handle" = true ->
        is_Some (build_handlers proto !! intent_name prop))
  /\ (forall prop m, Js.startsWith prop "handle" = true ->
        build_handlers (proto ++ [(prop, m)]) !! intent_name prop = Some m)
  /\ (forall prop m, Js.startsWith prop "handle" = false ->
        build_handlers (proto ++ [(prop, m)]) = build_handlers proto).
Proof.
  split; [|split; [|split]].
  - induction proto as [|[prop m'] proto IH] using rev_ind; intros key m.
    + unfold build_handlers. simpl. by rewrite lookup_empty.
    + rewrite build_handlers_snoc. unfold register. simpl.
      destruct (Js.startsWith prop "handle") eqn:S.
      * destruct (decide (intent_name prop = key)) as [<-|N].
        -- rewrite lookup_insert_eq. intros [= <-]. exists prop.
           split; [|done]. apply elem_of_app. right. by apply list_elem_of_singleton.
        -- rewrite lookup_insert_ne by done. intros H.
           destruct (IH key m H) as (p & I & ?). exists p.
           split; [|done]. apply elem_of_app. by left.
      * intros H. destruct (IH key m H) as (p & I & ?). exists p.
        split; [|done]. apply elem_of_app. by left.
  - induction proto as [|[prop' m'] proto IH] using rev_ind; intros prop m I S.
    + by apply elem_of_nil in I.
    + rewrite build_handlers_snoc. unfold register. simpl.
      apply elem_of_app in I as [I|I].
      * specialize (IH prop m I S).
        destruct (Js.startsWith prop' "handle"); [|done].
        destruct (decide (intent_name prop' = intent_name prop)) as [->|N].
        -- rewrite lookup_insert_eq. eauto.
        -- by rewrite lookup_insert_ne.
      * apply list_elem_of_singleton in I. injection I as <- <-.
        rewrite S, lookup_insert_eq. eauto.
  - intros prop m S. rewrite build_handlers_snoc. unfold register. simpl.
    by rewrite S, lookup_insert_eq.
  - intros prop m S. rewrite build_handlers_snoc. unfold register. simpl.
    by rewrite S.
Qed.

Lemma build_handlers_lookup_witness :
  build_handlers (prototype ++ [("handleNameAgentGet", m_handleNameAgentDelete)])
    !! "name.agent.get" = Some m_handleNameAgentDelete
  /\ build_handlers (prototype ++ [("toString", m_findHandler)]) = handlers.
Proof.
  destruct (build_handlers_lookup prototype) as (_ & _ & L & O).
  split.
  - exact (L "handleNameAgentGet" m_handleNameAgentDelete eq_refl).
  - exact (O "toString" m_findHandler eq_refl).
Defined.

(** ** The cache over a run *)



(** ** Starting up *)

Lemma registrations_app t u :
  Startup.registrations (t ++ u) = Startup.registrations t + Startup.registrations u.
Proof. unfold Startup.registrations. by rewrite List.filter_app, length_app. Qed.

Lemma listeners_app t u :
  Startup.listeners (t ++ u) = Startup.listeners t + Startup.listeners u.
Proof. unfold Startup.listeners. by rewrite List.filter_app, length_app. Qed.

Lemma quiet_calls_app t u : quiet_calls t -> quiet_calls u -> quiet_calls (t ++ u).
Proof.
  intros [R1 L1] [R2 L2]. split; [rewrite registrations_app|rewrite listeners_app]; lia.
Qed.

(** [login] asks, authenticates and completes, and does nothing else; it
    returns or is rejected. *)
Lemma login_calls H userTag h :
  exists t, (Startup.login H userTag h).2 = h ++ t /\ quiet_calls t
            /\ ((Startup.login H userTag h).1 = Startup.Returned tt
                \/ exists e, (Startup.login H userTag h).1 = Startup.Rejected e).
Proof.
  unfold Startup.login, Startup.bind, Startup.ask, Startup.input, Startup.ret.
  destruct (present userTag) as [u|];
    cbn [fst snd];
    repeat match goal with
           | |- context [match ?c with Normal _ => _ | Throw _ => _ end] =>
               destruct c as [[]|?]; cbn [fst snd]
           end;
    (eexists; split; [by rewrite <- ?app_assoc|]; split; [done|eauto]).
Qed.

(** What [register_if_needed] does, case by case. *)
Lemma register_if_needed_spec (H : Startup.Host) (h : list Startup.call) :
  let r := Startup.register_if_needed H h in
  let h1 := h ++ [Startup.GetState "registrationId"] in
  let h2 := h1 ++ [Startup.GetDevices] in
  exists t,
    r.2 = h ++ t
    /\ Startup.listeners t = 0
    /\ Startup.registrations t <= 1
    /\ (Startup.registrations t = 1 <->
        exists v devices,
          Startup.getState H h "registrationId" = Normal v /\ truthy v = false
          /\ Startup.getDevices H h1 = Normal devices
          /\ (devices = [] \/ Startup.question H h2 Startup.reset_prompt = "YES"))
    /\ (forall c, r.1 = Startup.Exited c ->
          c = 1 /\ Startup.registrations t = 0
          /\ Startup.question H h2 Startup.reset_prompt <> "YES")
    /\ r.1 <> Startup.Unfinished.
Proof.
  cbv zeta.
  unfold Startup.register_if_needed, Startup.bind, Startup.ask, Startup.input,
    Startup.ret, Startup.exit.
  destruct (Startup.getState H h "registrationId") as [v|e] eqn:G; cbn [fst snd];
    [destruct (truthy v) eqn:T; cbn [fst snd];
     [|destruct (Startup.getDevices H _) as [devices|e] eqn:D; cbn [fst snd];
       [destruct (decide (length devices = 0)) as [Z|NZ]; cbn [fst snd];
        [|destruct (decide (Startup.question H _ Startup.reset_prompt = "YES"))
            as [Y|NY]; cbn [fst snd]];
        try (destruct (Startup.registerAccount H _) as [[]|e]; cbn [fst snd])|]]|];
    (eexists; split; [by rewrite <- ?app_assoc|]);
    (split; [reflexivity|]);
    unfold Startup.registrations; simpl;
    (split; [lia|]);
    (split; [split;
             [intros X; try lia; eexists _, _;
              (split; [reflexivity|]); (split; [done|]); (split; [reflexivity|]);
              first [right; done|left; by destruct devices]
             |intros (v' & devs & Gv & Tv & Dv & C); try reflexivity;
              simplify_eq; destruct C as [->|C];
              first [done|congruence|by simpl in *]]
           |]);
    (split; [intros c X; simplify_eq; done|done]).
Qed.


Lemma start_listener_calls H h :
  exists t,
    (Startup.start_listener H h).2 = h ++ t
    /\ Startup.registrations t = 0
    /\ match (Startup.start_listener H h).1 with
       | Startup.Returned _ =>
           exists t0 b,
             t = t0 ++ [Startup.MaintainToken true; Startup.MsgListener b]
             /\ Startup.listeners t0 = 0
             /\ exists addr rest,
                  Startup.getState H h "addr" = Normal addr
                  /\ Startup.getUsers H (h ++ [Startup.GetState "addr"]) [addr]
                     = Normal (b :: rest)
       | Startup.Rejected _ => Startup.listeners t = 0
       | _ => False
       end.
Proof.
  unfold Startup.start_listener, Startup.bind, Startup.ask, Startup.ret.
  destruct (Startup.getState H h "addr") as [addr|e] eqn:G; cbn [fst snd].
  2:{ by eexists. }
  destruct (Startup.getUsers H _ [addr]) as [[|b rest]|e] eqn:U; cbn [fst snd].
  - eexists. split; [by rewrite <- ?app_assoc|]. done.
  - eexists. split; [by rewrite <- ?app_assoc|]. split; [done|].
    exists [Startup.GetState "addr"; Startup.GetUsers [addr]], b.
    split; [done|]. split; [done|]. by exists addr, rest.
  - eexists. split; [by rewrite <- ?app_assoc|]. done.
Qed.

Lemma main_ending_prefix r t0 t :
  quiet_calls t0 -> main_ending r t -> main_ending r (t0 ++ t).
Proof.
  intros [R0 L0] [R E]. split; [rewrite registrations_app; lia|].
  destruct r as [[]|e|c|].
  - destruct E as (t1 & b & -> & L1). exists (t0 ++ t1), b.
    split; [by rewrite app_assoc|]. rewrite listeners_app. lia.
  - rewrite listeners_app. lia.
  - destruct E as (-> & L & R'). rewrite listeners_app, registrations_app. lia.
  - destruct E as (L & R'). rewrite listeners_app, registrations_app. lia.
Qed.

Lemma main_ending_rejected e t : quiet_calls t -> main_ending (Startup.Rejected e) t.
Proof. intros [R L]. split; [lia|done]. Qed.

Lemma quiet_single c :
  Startup.is_register c = false -> Startup.is_listener c = false -> quiet_calls [c].
Proof.
  intros R L. unfold quiet_calls, Startup.registrations, Startup.listeners.
  simpl. by rewrite R, L.
Qed.

(** The part of [main] after a successful [factory]. *)
Lemma register_then_start H h :
  exists t o,
    Startup.bind (Startup.register_if_needed H)
      (fun _ => Startup.start_listener H) h = (o, h ++ t)
    /\ main_ending o t /\ o <> Startup.Unfinished.
Proof.
  unfold Startup.bind.
  destruct (register_if_needed_spec H h) as (t1 & E1 & L1 & R1 & _ & X1 & U1).
  destruct (Startup.register_if_needed H h) as [[[]|e|c|] h1];
    cbn [fst snd] in *; subst h1.
  - destruct (start_listener_calls H (h ++ t1)) as (t2 & E2 & R2 & O2).
    destruct (Startup.start_listener H (h ++ t1)) as [o2 h2].
    cbn [fst snd] in *. subst h2. exists (t1 ++ t2), o2.
    split; [by rewrite app_assoc|].
    split; [|by destruct o2].
    split; [rewrite registrations_app; lia|].
    destruct o2 as [[]|e|c|]; try done.
    + destruct O2 as (t0 & b & -> & L0 & _). exists (t1 ++ t0), b.
      split; [by rewrite app_assoc|]. rewrite listeners_app. lia.
    + rewrite listeners_app. lia.
  - exists t1, (Startup.Rejected e). split; [done|]. split; [|done].
    split; [lia|done].
  - exists t1, (Startup.Exited c). split; [done|]. split; [|done]. split; [lia|].
    by destruct (X1 c eq_refl) as (-> & ? & _).
  - done.
Qed.

Lemma quiet_get_state key : quiet_calls [Startup.GetState key].
Proof. by apply quiet_single. Qed.

Lemma quiet_factory : quiet_calls [Startup.Factory].
Proof. by apply quiet_single. Qed.

Lemma main_calls H fuel :
  forall h, exists t o, Startup.main H fuel h = (o, h ++ t) /\ main_ending o t.
Proof.
  induction fuel as [|n IH]; intros h.
  { exists [], Startup.Unfinished. split; [by rewrite app_nil_r|].
    split; [unfold Startup.registrations; simpl; lia|done]. }
  cbn [Startup.main]. unfold Startup.bind at 1. unfold Startup.ask at 1.
  pose proof (quiet_get_state "atlasCredential") as Q0.
  destruct (Startup.getState H h "atlasCredential") as [cred|e].
  2:{ eexists _, _. split; [done|]. by apply main_ending_rejected. }
  set (h1 := h ++ [Startup.GetState "atlasCredential"]).
  assert (exists t1 o1,
            (if truthy cred then Startup.ret tt else Startup.login H None) h1
            = (o1, h1 ++ t1)
            /\ quiet_calls t1
            /\ (o1 = Startup.Returned tt \/ exists e, o1 = Startup.Rejected e))
    as (t1 & o1 & E1 & Q1 & O1).
  { destruct (truthy cred).
    - exists [], (Startup.Returned tt). rewrite app_nil_r.
      split; [done|]. split; [done|by left].
    - destruct (login_calls H None h1) as (t & Et & Qt & Ot).
      exists t, (Startup.login H None h1).1. rewrite <- Et.
      by destruct (Startup.login _ _ _). }
  unfold Startup.bind at 1. rewrite E1.
  destruct O1 as [->|[e ->]].
  2:{ exists ([Startup.GetState "atlasCredential"] ++ t1), (Startup.Rejected e).
      split; [unfold h1; by rewrite <- app_assoc|].
      apply main_ending_rejected. by apply quiet_calls_app. }
  set (h2 := h1 ++ t1).
  unfold Startup.bind at 1, Startup.try_catch, Startup.bind at 1, Startup.ask at 1.
  pose proof quiet_factory as QF.
  destruct (Startup.factory H h2) as [[]|e]; cbn [Startup.ret].
  - destruct (register_then_start H (h2 ++ [Startup.Factory]))
      as (t3 & o3 & E3 & M3 & _).
    exists ([Startup.GetState "atlasCredential"] ++ t1 ++ [Startup.Factory] ++ t3), o3.
    split; [rewrite E3; unfold h2, h1; by rewrite <- !app_assoc|].
    apply main_ending_prefix; [done|]. apply main_ending_prefix; [done|].
    by apply main_ending_prefix.
  - destruct (login_calls H None (h2 ++ [Startup.Factory])) as (t3 & E3 & Q3 & O3).
    unfold Startup.bind at 1.
    destruct (Startup.login H None (h2 ++ [Startup.Factory])) as [o3 h4].
    cbn [fst snd] in *. subst h4. destruct O3 as [->|[e' ->]].
    + cbn [Startup.ret].
      destruct (IH ((h2 ++ [Startup.Factory]) ++ t3)) as (t4 & o4 & E4 & M4).
      exists ([Startup.GetState "atlasCredential"] ++ t1 ++ [Startup.Factory] ++ t3 ++ t4), o4.
      split; [rewrite E4; unfold h2, h1; by rewrite <- !app_assoc|].
      apply main_ending_prefix; [done|]. apply main_ending_prefix; [done|].
      apply main_ending_prefix; [done|]. by apply main_ending_prefix.
    + exists ([Startup.GetState "atlasCredential"] ++ t1 ++ [Startup.Factory] ++ t3),
        (Startup.Rejected e').
      split; [unfold h2, h1; by rewrite <- !app_assoc|].
      apply main_ending_rejected.
      apply quiet_calls_app; [done|]. apply quiet_calls_app; [done|].
      by apply quiet_calls_app.
Qed.


(** X23.  Whatever the collaborators answer and however often [main]
    restarts: the account is registered at most once; the listener is
    started only in a run that returns, once, as its last call, right after
    the token maintenance is switched on; a run that is rejected has not
    started it; and the process exits only with code 1, having registered
    nothing and started nothing. *)
Theorem main_ends (H : Startup.Host) (fuel : nat) (h : list Startup.call) :
  exists t,
    (Startup.main H fuel h).2 = h ++ t
    /\ Startup.registrations t <= 1
    /\ match (Startup.main H fuel h).1 with
       | Startup.Returned _ =>
           exists t0 b,
             t = t0 ++ [Startup.MaintainToken true; Startup.MsgListener b]
             /\ Startup.listeners t0 = 0
       | Startup.Rejected _ => Startup.listeners t = 0
       | Startup.Exited c =>
           c = 1 /\ Startup.listeners t = 0 /\ Startup.registrations t = 0
       | Startup.Unfinished =>
           Startup.listeners t = 0 /\ Startup.registrations t = 0
       end.
Proof.
  destruct (main_calls H fuel h) as (t & o & E & M). exists t. by rewrite E.
Qed.

(** X24.  The listener is started with the first user the directory
    returns for the address in the store.  When the directory returns no
    user, the start is rejected with the type error of reading [tag] of
    [undefined], and the listener is not started. *)
Theorem listener_starts_with_first_user (H : Startup.Host) (h : list Startup.call) :
  let h1 := h ++ [Startup.GetState "addr"] in
  (forall addr b rest,
     Startup.getState H h "addr" = Normal addr ->
     Startup.getUsers H h1 [addr] = Normal (b :: rest) ->
     Startup.start_listener H h
     = (Startup.Returned tt,
        h1 ++ [Startup.GetUsers [addr]; Startup.MaintainToken true;
               Startup.MsgListener b]))
  /\ (forall addr,
        Startup.getState H h "addr" = Normal addr ->
        Startup.getUsers H h1 [addr] = Normal [] ->
        Startup.start_listener H h
        = (Startup.Rejected (TypeError (Startup.no_property H "tag")),
           h1 ++ [Startup.GetUsers [addr]])).
Proof.
  cbv zeta. unfold Startup.start_listener, Startup.bind, Startup.ask, Startup.ret.
  split.
  - intros addr b rest -> ->. cbn [fst snd]. by rewrite <- !app_assoc.
  - by intros addr -> ->.
Qed.

Lemma listener_starts_with_first_user_witness :
  Startup.start_listener
    (Console.host (VBool true) (VBool true) [] [] 0) []
  = (Startup.Returned tt,
     [Startup.GetState "addr"; Startup.GetUsers [VString "bot-1"];
      Startup.MaintainToken true; Startup.MsgListener Sample.ada]).
Proof.
  destruct (listener_starts_with_first_user
              (Console.host (VBool true) (VBool true) [] [] 0) []) as [S _].
  exact (S (VString "bot-1") Sample.ada [] eq_refl eq_refl).
Defined.

(** ** Restarts of [main] *)

Lemma main_unfold H n : Startup.main H (Datatypes.S n) = main_round H (Startup.main H n).
Proof. reflexivity. Qed.

(** A round gives the same result when what follows a new login gives the
    same results. *)
Lemma main_tail_mono H (k k' : Startup.S unit) h o h' :
  (forall h1 o1 h1', k h1 = (o1, h1') -> o1 <> Startup.Unfinished -> k' h1 = (o1, h1')) ->
  main_tail H k h = (o, h') -> o <> Startup.Unfinished ->
  main_tail H k' h = (o, h').
Proof.
  intros K. unfold main_tail, Startup.bind, Startup.try_catch, Startup.ask, Startup.ret.
  destruct (Startup.factory H h) as [[]|e]; [done|].
  destruct (Startup.login H None (h ++ [Startup.Factory])) as [[[]|e'|c|] h3];
    try done.
  apply K.
Qed.

Lemma main_round_mono H (k k' : Startup.S unit) h o h' :
  (forall h1 o1 h1', k h1 = (o1, h1') -> o1 <> Startup.Unfinished -> k' h1 = (o1, h1')) ->
  main_round H k h = (o, h') -> o <> Startup.Unfinished ->
  main_round H k' h = (o, h').
Proof.
  intros K. unfold main_round, Startup.bind, Startup.ask.
  destruct (Startup.getState H h "atlasCredential") as [cred|e]; [|done].
  destruct (truthy cred).
  - by apply main_tail_mono.
  - destruct (Startup.login H None (h ++ [Startup.GetState "atlasCredential"]))
      as [[[]|e|c|] h2]; try done.
    by apply main_tail_mono.
Qed.

Lemma main_more_fuel H n :
  forall h o h', Startup.main H n h = (o, h') -> o <> Startup.Unfinished ->
                 Startup.main H (Datatypes.S n) h = (o, h').
Proof.
  induction n as [|n IH]; intros h o h' E N.
  - injection E as <- <-. done.
  - rewrite main_unfold in E. rewrite (main_unfold H (Datatypes.S n)).
    by apply (main_round_mono H (Startup.main H n)).
Qed.

(** X25.  Restarts are what the fuel counts.  A run that has ended is not
    changed by more fuel; and [main] restarts only after a failed
    [factory]: where the factory does not fail, one round ends the run. *)
Theorem main_restarts (H : Startup.Host) :
  (forall n m h o h',
     Startup.main H n h = (o, h') -> o <> Startup.Unfinished ->
     Startup.main H (n + m) h = (o, h'))
  /\ ((forall h, Startup.factory H h = Normal tt) ->
      forall n h, (Startup.main H (Datatypes.S n) h).1 <> Startup.Unfinished).
Proof.
  split.
  - intros n m. induction m as [|m IH]; intros h o h' E N.
    + by rewrite Nat.add_0_r.
    + rewrite Nat.add_succ_r. apply main_more_fuel; [|done]. by apply IH.
  - intros F n h. rewrite main_unfold.
    assert (forall k h2, (main_tail H k h2).1 <> Startup.Unfinished) as T.
    { intros k h2.
      unfold main_tail, Startup.bind, Startup.try_catch, Startup.ask, Startup.ret.
      rewrite F.
      destruct (register_then_start H (h2 ++ [Startup.Factory])) as (t & o & E & _ & N).
      unfold Startup.bind in E. by rewrite E. }
    unfold main_round, Startup.bind, Startup.ask.
    destruct (Startup.getState H h "atlasCredential") as [cred|e]; [|done].
    destruct (truthy cred); [apply T|].
    destruct (login_calls H None (h ++ [Startup.GetState "atlasCredential"]))
      as (_ & _ & _ & O).
    destruct (Startup.login H None (h ++ [Startup.GetState "atlasCredential"]))
      as [[[]|e|c|] h2]; cbn [fst snd] in *; try done;
      first [apply T|by destruct O as [?|[? ?]]].
Qed.

Lemma main_restarts_witness :
  Startup.main (Console.host VUndefined (VBool true) [] ["@ada:forsta"; "123456"] 0) 5 []
  = (Startup.Returned tt,
     [Startup.GetState "atlasCredential"; Startup.Question Startup.tag_prompt;
      Startup.Authenticate "@ada:forsta"; Startup.Question Startup.code_prompt;
      Startup.CompleteLogin "123456"; Startup.Factory;
      Startup.GetState "registrationId"; Startup.GetState "addr";
      Startup.GetUsers [VString "bot-1"]; Startup.MaintainToken true;
      Startup.MsgListener Sample.ada])
  /\ (Startup.main (Console.host VUndefined (VBool true) [] [] 0) 1 []).1
     <> Startup.Unfinished.
Proof.
  destruct (main_restarts
              (Console.host VUndefined (VBool true) [] ["@ada:forsta"; "123456"] 0))
    as [M _].
  destruct (main_restarts (Console.host VUndefined (VBool true) [] [] 0)) as [_ F].
  split.
  - apply (M 1 4 []); [reflexivity|discriminate].
  - apply (F ltac:(reflexivity) 0 []).
Defined.

(** X26.  With a credential and a registration id in the store and a
    factory that works, [main] goes straight to starting the listener: the
    operator is asked nothing and nothing is registered. *)
Theorem main_unattended (H : Startup.Host) (n : nat) (h : list Startup.call)
    (cred reg : value) :
  let h1 := h ++ [Startup.GetState "atlasCredential"] in
  let h2 := h1 ++ [Startup.Factory] in
  let h3 := h2 ++ [Startup.GetState "registrationId"] in
  Startup.getState H h "atlasCredential" = Normal cred -> truthy cred = true ->
  Startup.factory H h1 = Normal tt ->
  Startup.getState H h2 "registrationId" = Normal reg -> truthy reg = true ->
  Startup.main H (Datatypes.S n) h = Startup.start_listener H h3
  /\ exists t,
      (Startup.main H (Datatypes.S n) h).2 = h ++ t
      /\ Startup.questions t = 0 /\ Startup.registrations t = 0.
Proof.
  intros h1 h2 h3 Gc Tc F Gr Tr.
  assert (Startup.main H (Datatypes.S n) h = Startup.start_listener H h3) as E.
  { rewrite main_unfold.
    unfold main_round, main_tail, Startup.bind, Startup.try_catch, Startup.ask,
      Startup.ret.
    rewrite Gc, Tc. fold h1. rewrite F. fold h2.
    unfold Startup.register_if_needed, Startup.bind, Startup.ask, Startup.ret.
    by rewrite Gr, Tr. }
  split; [exact E|]. rewrite E.
  unfold Startup.start_listener, Startup.bind, Startup.ask, Startup.ret.
  destruct (Startup.getState H h3 "addr") as [addr|e]; cbn [fst snd].
  2:{ eexists. split; [unfold h3, h2, h1; by rewrite <- !app_assoc|]. done. }
  destruct (Startup.getUsers H _ [addr]) as [[|b rest]|e]; cbn [fst snd];
    (eexists; split; [unfold h3, h2, h1; by rewrite <- !app_assoc|]); done.
Qed.

Lemma main_unattended_witness :
  Startup.main (Console.host (VBool true) (VString "1234") Console.phone [] 0) 1 []
  = (Startup.Returned tt,
     [Startup.GetState "atlasCredential"; Startup.Factory;
      Startup.GetState "registrationId"; Startup.GetState "addr";
      Startup.GetUsers [VString "bot-1"]; Startup.MaintainToken true;
      Startup.MsgListener Sample.ada]).
Proof.
  destruct (main_unattended
              (Console.host (VBool true) (VString "1234") Console.phone [] 0) 0 []
              (VBool true) (VString "1234") eq_refl eq_refl eq_refl eq_refl eq_refl)
    as [E _].
  rewrite E. reflexivity.
Defined.


